(** * State verification: a shallow embedding of [exp/ingest/verify]
    and of the transform function of [services/horizon/internal/expingest].

    Go values are embedded as follows.
    - An [error] interface value is [option error]: [None] is [nil].  The two
      package-level sentinels and [io.EOF] are constructors, because the code
      compares them with [==]; every other error is [errNew msg].
    - A call that may panic returns a [Result]: [Ret x] or [Panic msg].
    - A method with a pointer receiver takes the receiver's state and returns
      the new state next to its Go results.
    - [map[string]bool] is [gmap string bool]; a nil map is [None]. *)

From Stdlib Require Import ZArith Ascii String List.
From stdpp Require Import base option list gmap strings fin_maps.

Local Open Scope string_scope.
Local Open Scope list_scope.

(** ** Results and errors *)

Inductive Result (A : Type) : Type :=
| Ret (a : A)
| Panic (msg : string).
Arguments Ret {A} a.
Arguments Panic {A} msg.

#[global] Instance Result_ret : MRet Result := fun A a => Ret a.

#[global] Instance Result_bind : MBind Result := fun A B k r =>
  match r with
  | Ret a => k a
  | Panic msg => Panic msg
  end.

(** [errKeyNotFound] and [errKeyAlreadyExists] are the package variables of
    main.go; [EOF] is [io.EOF]. *)
Inductive error : Type :=
| errKeyNotFound
| errKeyAlreadyExists
| EOF
| errNew (msg : string).

#[global] Instance error_eq_dec : EqDecision error.
Proof. solve_decision. Defined.

(** The [Error()] method. *)
Definition Error (e : error) : string :=
  match e with
  | errKeyNotFound => "Key not found"
  | errKeyAlreadyExists => "Key already exists"
  | EOF => "EOF"
  | errNew msg => msg
  end.

(** [strings.Contains s sub], used to state what an error message holds. *)
Fixpoint Contains (s sub : string) : bool :=
  String.prefix sub s ||
  match s with
  | EmptyString => false
  | String _ s' => Contains s' sub
  end.

(** ** The [StateVerifyTempSet] interface (main.go) *)

Module StateVerifyTempSet.
Class StateVerifyTempSet (T : Type) : Type := {
  Open : T -> Result (option error * T);
  Add : string -> T -> Result (option error * T);
  Remove : string -> T -> Result (option error * T);
  IsEmpty : T -> Result ((bool * option error) * T);
  Close : T -> Result (option error * T)
}.
End StateVerifyTempSet.

(** ** memory_state_verify_temp_set.go *)

Module MemoryStateVerifyTempSet.

Record MemoryStateVerifyTempSet : Type := mk {
  m : option (gmap string bool)
}.

(** [s.m = make(map[string]bool)] *)
Definition Open (s : MemoryStateVerifyTempSet)
  : Result (option error * MemoryStateVerifyTempSet) :=
  Ret (None, {| m := Some ∅ |}).

(** Reading a nil map yields the zero value and [ok = false]. *)
Definition index (mp : option (gmap string bool)) (key : string) : bool * bool :=
  match mp with
  | None => (false, false)
  | Some g =>
      match g !! key with
      | Some b => (b, true)
      | None => (false, false)
      end
  end.

(** [s.m[key] = true] panics when [s.m] is nil. *)
Definition Add (key : string) (s : MemoryStateVerifyTempSet)
  : Result (option error * MemoryStateVerifyTempSet) :=
  let '(_, ok) := index (m s) key in
  if ok then Ret (Some errKeyAlreadyExists, s)
  else
    match m s with
    | None => Panic "assignment to entry in nil map"
    | Some g => Ret (None, {| m := Some (<[key := true]> g) |})
    end.

(** [delete] on a nil map is a no-op (not reached: [ok] is false there). *)
Definition Remove (key : string) (s : MemoryStateVerifyTempSet)
  : Result (option error * MemoryStateVerifyTempSet) :=
  let '(_, ok) := index (m s) key in
  if negb ok then Ret (Some errKeyNotFound, s)
  else Ret (None, {| m := base.delete key <$> m s |}).

(** [len] of a nil map is 0. *)
Definition len (mp : option (gmap string bool)) : nat :=
  match mp with
  | None => 0
  | Some g => size g
  end.

Definition IsEmpty (s : MemoryStateVerifyTempSet)
  : Result ((bool * option error) * MemoryStateVerifyTempSet) :=
  Ret ((Nat.eqb (len (m s)) 0, None), s).

(** [s.m = nil] *)
Definition Close (s : MemoryStateVerifyTempSet)
  : Result (option error * MemoryStateVerifyTempSet) :=
  Ret (None, {| m := None |}).

#[global] Instance tempset
  : StateVerifyTempSet.StateVerifyTempSet MemoryStateVerifyTempSet := {|
  StateVerifyTempSet.Open := Open;
  StateVerifyTempSet.Add := Add;
  StateVerifyTempSet.Remove := Remove;
  StateVerifyTempSet.IsEmpty := IsEmpty;
  StateVerifyTempSet.Close := Close
|}.

End MemoryStateVerifyTempSet.

(** ** Parameters: the xdr package and the Go standard library

    The [xdr] package is not among the sources.  The verifier uses a ledger
    entry only through [MarshalBinary], and a ledger entry change only through
    [MustState], which panics when the change does not carry a state entry.
    [MarshalBinary] returns its bytes next to its error, as in Go, because
    [Verify] reads the bytes while discarding the error. *)

Class XDR : Type := {
  LedgerEntry : Type;
  LedgerEntryChange : Type;
  MustState : LedgerEntryChange -> Result LedgerEntry;
  MarshalBinary : LedgerEntry -> list Byte.byte * option error
}.

(** [sha256.Sum256] and [base64.StdEncoding.EncodeToString]. *)
Class Digest : Type := {
  Sum256 : list Byte.byte -> list Byte.byte;
  EncodeToString : list Byte.byte -> string
}.

(** ** main.go *)

Module StateVerifier.
Section StateVerifier.
Context {xdr : XDR} {digest : Digest}
  {T : Type} {tempset : StateVerifyTempSet.StateVerifyTempSet T}.

(** Modelled from the spec: the sequential authoritative-record source
    ([io.SingleLedgerStateReader], whose package is not among the sources) is
    "an externally supplied pull-based reader yielding StateRecord values in
    an unspecified but exhaustive order, terminated by an explicit
    end-of-stream indication; any other read failure is surfaced as an
    infrastructure error".  The state of a reader is the list of the results
    its next reads give; a reader with nothing left answers [EOF]. *)
Definition SingleLedgerStateReader : Type := list (LedgerEntryChange + error).

Definition Read (r : SingleLedgerStateReader)
  : (LedgerEntryChange + error) * SingleLedgerStateReader :=
  match r with
  | [] => (inr EOF, [])
  | res :: r' => (res, r')
  end.

Definition TransformLedgerEntryFunction : Type :=
  LedgerEntry -> Result (bool * LedgerEntry).

Record StateVerifier : Type := mk {
  StateReader : SingleLedgerStateReader;
  TempSet : T;
  TransformFunction : option TransformLedgerEntryFunction;
  stateCorruptedError : option error
}.

Definition set_StateReader (r : SingleLedgerStateReader) (v : StateVerifier) :=
  {| StateReader := r; TempSet := TempSet v;
     TransformFunction := TransformFunction v;
     stateCorruptedError := stateCorruptedError v |}.

Definition set_TempSet (t : T) (v : StateVerifier) :=
  {| StateReader := StateReader v; TempSet := t;
     TransformFunction := TransformFunction v;
     stateCorruptedError := stateCorruptedError v |}.

Definition set_stateCorruptedError (e : option error) (v : StateVerifier) :=
  {| StateReader := StateReader v; TempSet := TempSet v;
     TransformFunction := TransformFunction v;
     stateCorruptedError := e |}.

Definition Open (v : StateVerifier) : Result (option error * StateVerifier) :=
  '(err, t) ← StateVerifyTempSet.Open (TempSet v);
  Ret (err, set_TempSet t v).

Definition Close (v : StateVerifier) : Result (option error * StateVerifier) :=
  '(err, t) ← StateVerifyTempSet.Close (TempSet v);
  Ret (err, set_TempSet t v).

(** The receiver is passed and handed back: the method has a pointer
    receiver, which it never writes. *)
Definition entryToKey (entry : LedgerEntry) (v : StateVerifier)
  : (string * option error) * StateVerifier :=
  let '(xdrEncoded, err) := MarshalBinary entry in
  match err with
  | Some e => (("", Some e), v)
  | None =>
      let sum := Sum256 xdrEncoded in
      let key := EncodeToString sum in
      ((key, None), v)
  end.

Definition Add (entry : LedgerEntry) (v : StateVerifier)
  : Result (option error * StateVerifier) :=
  let '((key, err), v) := entryToKey entry v in
  match err with
  | Some e => Ret (Some e, v)
  | None =>
      '(err, t) ← StateVerifyTempSet.Add key (TempSet v);
      Ret (err, set_TempSet t v)
  end.

(** [errors.Errorf] with the format of Verify. *)
Definition corruptedMessage (preTransform transformed key : string) : string :=
  "Could not find entry " +:+ preTransform +:+
  " (transformed = " +:+ transformed +:+
  ", key = " +:+ key +:+ ") in added entries".

(** How one pass through the body of the [for] loop ends. *)
Inductive flow : Type :=
| Continue
| Break
| Return (ok : bool) (err : option error).

(** The body of the loop of [Verify], after [Read] has answered [res]. *)
Definition Verify_body (res : LedgerEntryChange + error) (v : StateVerifier)
  : Result (flow * StateVerifier) :=
  match res with
  | inr err =>
      if decide (err = EOF) then Ret (Break, v)
      else Ret (Return true (Some err), v)
  | inl entryChange =>
      entry ← MustState entryChange;
      let preTransformEntry := entry in
      '(ignore, entry) ←
        match TransformFunction v with
        | Some f => f entry
        | None => Ret (false, entry)
        end;
      if (ignore : bool) then Ret (Continue, v)
      else
        let '((key, err), v) := entryToKey entry v in
        match err with
        | Some e => Ret (Return true (Some e), v)
        | None =>
            '(err, t) ← StateVerifyTempSet.Remove key (TempSet v);
            let v := set_TempSet t v in
            match err with
            | Some e =>
                if decide (e = errKeyNotFound) then
                  let '(entryMarshaled, _) := MarshalBinary entry in
                  let '(preTransformEntryMarshaled, _) :=
                    MarshalBinary preTransformEntry in
                  let v := set_stateCorruptedError
                    (Some (errNew (corruptedMessage
                       (EncodeToString preTransformEntryMarshaled)
                       (EncodeToString entryMarshaled)
                       key))) v in
                  Ret (Return false None, v)
                else Ret (Return true (Some e), v)
            | None => Ret (Continue, v)
            end
        end
  end.

(** The [for] loop.  The recursion follows the reader: the first clause is
    [Read] on an exhausted reader, the second [Read] on one that has a next
    result (see [Verify_loop_Read]). *)
Fixpoint Verify_loop (r : SingleLedgerStateReader) (v : StateVerifier)
  : Result (flow * StateVerifier) :=
  match r with
  | [] => Verify_body (inr EOF) (set_StateReader [] v)
  | res :: r' =>
      '(fl, v') ← Verify_body res (set_StateReader r' v);
      match fl with
      | Continue => Verify_loop r' v'
      | _ => Ret (fl, v')
      end
  end.

Definition Verify (v : StateVerifier)
  : Result ((bool * option error) * StateVerifier) :=
  '(fl, v) ← Verify_loop (StateReader v) v;
  match fl with
  | Return ok err => Ret ((ok, err), v)
  | _ =>
      '((empty, err), t) ← StateVerifyTempSet.IsEmpty (TempSet v);
      let v := set_TempSet t v in
      match err with
      | Some e =>
          let v := set_stateCorruptedError
            (Some (errNew
               "Some entries added in Add has not been found in history archives"))
            v in
          Ret ((true, Some e), v)
      | None => Ret ((empty, None), v)
      end
  end.

Definition StateError (v : StateVerifier) : option error :=
  stateCorruptedError v.

(** The caller's side of the protocol, as [addAccountsToStateVerifier] does
    it: [Add] once per local record, giving up at the first error. *)
Fixpoint AddAll (entries : list LedgerEntry) (v : StateVerifier)
  : Result (option error * StateVerifier) :=
  match entries with
  | [] => Ret (None, v)
  | entry :: entries' =>
      '(err, v') ← Add entry v;
      match err with
      | Some e => Ret (Some e, v')
      | None => AddAll entries' v'
      end
  end.

End StateVerifier.
Arguments StateVerifier {_} T.
Arguments SingleLedgerStateReader {_}.
Arguments TransformLedgerEntryFunction {_}.
End StateVerifier.

(** ** services/horizon/internal/expingest/verify.go: [transformEntry]

    The xdr declarations this function reads are parameters: the types of an
    account id and of a signer, the four discriminants it switches on,
    [MasterKeyWeight] and [SortSignersByKey].  A struct keeps the fields the
    function names; what else it holds sits in one field ([..._rest]) whose
    zero value is a parameter too, so that the composite literals of the
    source, which leave those fields out, can be written down. *)

Module expingest.

Class XDRDecls : Type := {
  AccountId_t : Type;
  Signer : Type;
  AccountEntry_rest_t : Type;
  AccountEntry_rest_zero : AccountEntry_rest_t;
  LedgerEntryData_rest_t : Type;
  LedgerEntryData_rest_zero : LedgerEntryData_rest_t;
  LedgerEntry_rest_t : Type;
  LedgerEntry_rest_zero : LedgerEntry_rest_t;
  (** [LedgerEntryType] is an int32 *)
  LedgerEntryTypeAccount : Z;
  LedgerEntryTypeTrustline : Z;
  LedgerEntryTypeOffer : Z;
  LedgerEntryTypeData : Z
}.

Section transform.
Context {decls : XDRDecls}.

Record AccountEntry : Type := mkAccountEntry {
  AccountId : AccountId_t;
  Thresholds : Byte.byte * Byte.byte * Byte.byte * Byte.byte;
  Signers : list Signer;
  AccountEntry_rest : AccountEntry_rest_t
}.

(** [Account] is a pointer: [None] is nil. *)
Record LedgerEntryData : Type := mkLedgerEntryData {
  Type_ : Z;
  Account : option AccountEntry;
  LedgerEntryData_rest : LedgerEntryData_rest_t
}.

Record LedgerEntry : Type := mkLedgerEntry {
  Data : LedgerEntryData;
  LedgerEntry_rest : LedgerEntry_rest_t
}.

(** [xdr.LedgerEntry{}] *)
Definition LedgerEntry_zero : LedgerEntry :=
  {| Data := {| Type_ := 0; Account := None;
                LedgerEntryData_rest := LedgerEntryData_rest_zero |};
     LedgerEntry_rest := LedgerEntry_rest_zero |}.

Variable MasterKeyWeight : AccountEntry -> Byte.byte.
Variable SortSignersByKey : list Signer -> list Signer.

(** [accountEntry.Thresholds[0]] *)
Definition Thresholds_0 (t : Byte.byte * Byte.byte * Byte.byte * Byte.byte)
  : Byte.byte :=
  let '(t0, _, _, _) := t in t0.

Definition transformEntry (entry : LedgerEntry) : Result (bool * LedgerEntry) :=
  let ty := Type_ (Data entry) in
  if Z.eqb ty LedgerEntryTypeAccount then
    match Account (Data entry) with
    | None => Panic "invalid memory address or nil pointer dereference"
    | Some accountEntry =>
        if Byte.eqb (MasterKeyWeight accountEntry) Byte.x00
           && Nat.eqb (length (Signers accountEntry)) 0
        then Ret (true, LedgerEntry_zero)
        else
          Ret (false,
               {| Data :=
                    {| Type_ := LedgerEntryTypeAccount;
                       Account := Some
                         {| AccountId := AccountId accountEntry;
                            Thresholds :=
                              (Thresholds_0 (Thresholds accountEntry),
                               Byte.x00, Byte.x00, Byte.x00);
                            Signers := SortSignersByKey (Signers accountEntry);
                            AccountEntry_rest := AccountEntry_rest_zero |};
                       LedgerEntryData_rest := LedgerEntryData_rest_zero |};
                  LedgerEntry_rest := LedgerEntry_rest_zero |})
    end
  else if Z.eqb ty LedgerEntryTypeTrustline then Ret (true, LedgerEntry_zero)
  else if Z.eqb ty LedgerEntryTypeOffer then Ret (true, LedgerEntry_zero)
  else if Z.eqb ty LedgerEntryTypeData then Ret (true, LedgerEntry_zero)
  else Panic "Invalid type".

(** The discriminants the switch of [transformEntry] has a case for. *)
Definition known_types : list Z :=
  [LedgerEntryTypeAccount; LedgerEntryTypeTrustline;
   LedgerEntryTypeOffer; LedgerEntryTypeData].

End transform.
End expingest.

(** ** Vocabulary of the statements *)

Section Vocabulary.
Context {xdr : XDR} {digest : Digest}.

(** The fingerprint of a record that can be encoded. *)
Definition fingerprint (entry : LedgerEntry) : option string :=
  let '(xdrEncoded, err) := MarshalBinary entry in
  match err with
  | Some _ => None
  | None => Some (EncodeToString (Sum256 xdrEncoded))
  end.

(** What [Verify] makes of one authoritative record: [None] when it cannot
    be processed (a panic, or no encoding), [Some None] when the transform
    function ignores it, [Some (Some key)] when [key] is to be removed. *)
Definition normalized_key
    (f : option StateVerifier.TransformLedgerEntryFunction)
    (entryChange : LedgerEntryChange) : option (option string) :=
  match MustState entryChange with
  | Panic _ => None
  | Ret entry =>
      match (match f with Some g => g entry | None => Ret (false, entry) end) with
      | Panic _ => None
      | Ret (true, _) => Some None
      | Ret (false, entry') => Some <$> fingerprint entry'
      end
  end.

(** The keys of a stream in the order of delivery, ignored records dropped. *)
Fixpoint stream_keys
    (f : option StateVerifier.TransformLedgerEntryFunction)
    (stream : list LedgerEntryChange) : option (list string) :=
  match stream with
  | [] => Some []
  | entryChange :: stream' =>
      match normalized_key f entryChange, stream_keys f stream' with
      | Some None, Some ks => Some ks
      | Some (Some k), Some ks => Some (k :: ks)
      | _, _ => None
      end
  end.

(** The keys of the local records, when each has an encoding. *)
Definition local_keys (entries : list LedgerEntry) : option (list string) :=
  mapM fingerprint entries.

(** What a run of [Verify] leaves behind, the position of the reader apart:
    the two results, the set, the diagnosis. *)
Definition outcome {T : Type}
    (res : Result ((bool * option error) * StateVerifier.StateVerifier T))
  : Result ((bool * option error) * T * option error) :=
  '(x, v) ← res;
  Ret (x, StateVerifier.TempSet v, StateVerifier.StateError v).

(** The same for the loop alone. *)
Definition loop_outcome {T : Type}
    (res : Result (StateVerifier.flow * StateVerifier.StateVerifier T))
  : Result (StateVerifier.flow * StateVerifier.StateVerifier T) :=
  '(fl, v) ← res;
  Ret (fl, StateVerifier.set_StateReader [] v).

End Vocabulary.

(** The keys an in-memory set holds. *)
Definition held (s : MemoryStateVerifyTempSet.MemoryStateVerifyTempSet)
  : gset string :=
  match MemoryStateVerifyTempSet.m s with
  | None => ∅
  | Some g => dom g
  end.

(** [delete] for each key in turn. *)
Fixpoint delete_all (ks : list string) (g : gmap string bool) : gmap string bool :=
  match ks with
  | [] => g
  | k :: ks' => delete_all ks' (base.delete k g)
  end.

(** The calling order of the interface: any [Add]s, then any [Remove]s, each
    call made whatever the previous one returned. *)
Fixpoint Adds (ks : list string)
    (s : MemoryStateVerifyTempSet.MemoryStateVerifyTempSet)
  : Result MemoryStateVerifyTempSet.MemoryStateVerifyTempSet :=
  match ks with
  | [] => Ret s
  | k :: ks' =>
      '(_, s') ← MemoryStateVerifyTempSet.Add k s;
      Adds ks' s'
  end.

Fixpoint Removes (ks : list string)
    (s : MemoryStateVerifyTempSet.MemoryStateVerifyTempSet)
  : Result MemoryStateVerifyTempSet.MemoryStateVerifyTempSet :=
  match ks with
  | [] => Ret s
  | k :: ks' =>
      '(_, s') ← MemoryStateVerifyTempSet.Remove k s;
      Removes ks' s'
  end.

Definition OpenAddsRemoves (adds removes : list string)
    (s : MemoryStateVerifyTempSet.MemoryStateVerifyTempSet)
  : Result MemoryStateVerifyTempSet.MemoryStateVerifyTempSet :=
  '(_, s0) ← MemoryStateVerifyTempSet.Open s;
  s1 ← Adds adds s0;
  Removes removes s1.

(** ** A small instance on which the definitions run

    A record is a string, encoded by its bytes; the empty string has no
    encoding.  A change carries a state entry or none.  The digest and the
    text encoding are stand-ins: no statement below depends on what they
    compute. *)

Module Scenario.

#[local] Instance xdr : XDR := {|
  LedgerEntry := string;
  LedgerEntryChange := option string;
  MustState := fun c =>
    match c with
    | Some e => Ret e
    | None => Panic "arm State is not set"
    end;
  MarshalBinary := fun e =>
    if String.eqb e "" then ([], Some (errNew "xdr: cannot encode"))
    else (list_byte_of_string e, None)
|}.

#[local] Instance digest : Digest := {|
  Sum256 := fun b => rev b;
  EncodeToString := string_of_list_byte
|}.

(** A transform function that ignores the record ["D"] and strips the
    remark after the first ['#'] of any other. *)
Fixpoint strip (e : string) : string :=
  match e with
  | EmptyString => EmptyString
  | String c e' => if Ascii.eqb c "#"%char then EmptyString else String c (strip e')
  end.

Definition normalize (e : string) : Result (bool * string) :=
  if String.eqb e "D" then Ret (true, "") else Ret (false, strip e).

(** A set whose backing store fails when asked whether it is empty. *)
Record FailingTempSet : Type := mkFailing {
  inner : MemoryStateVerifyTempSet.MemoryStateVerifyTempSet
}.

Definition lift {A : Type}
    (r : Result (A * MemoryStateVerifyTempSet.MemoryStateVerifyTempSet))
  : Result (A * FailingTempSet) :=
  '(a, s) ← r; Ret (a, mkFailing s).

#[local] Instance failing : StateVerifyTempSet.StateVerifyTempSet FailingTempSet := {|
  StateVerifyTempSet.Open := fun s => lift (MemoryStateVerifyTempSet.Open (inner s));
  StateVerifyTempSet.Add := fun k s => lift (MemoryStateVerifyTempSet.Add k (inner s));
  StateVerifyTempSet.Remove := fun k s => lift (MemoryStateVerifyTempSet.Remove k (inner s));
  StateVerifyTempSet.IsEmpty := fun s => Ret ((false, Some (errNew "connection reset")), s);
  StateVerifyTempSet.Close := fun s => lift (MemoryStateVerifyTempSet.Close (inner s))
|}.

(** [&StateVerifier{StateReader: ..., TempSet: &MemoryStateVerifyTempSet{},
    TransformFunction: ...}], as [verifyState] builds it. *)
Definition verifier (stream : list (option string + error))
    (f : option (string -> Result (bool * string)))
  : StateVerifier.StateVerifier MemoryStateVerifyTempSet.MemoryStateVerifyTempSet :=
  {| StateVerifier.StateReader := stream;
     StateVerifier.TempSet := {| MemoryStateVerifyTempSet.m := None |};
     StateVerifier.TransformFunction := f;
     StateVerifier.stateCorruptedError := None |}.

Definition failing_verifier (stream : list (option string + error))
  : StateVerifier.StateVerifier FailingTempSet :=
  {| StateVerifier.StateReader := stream;
     StateVerifier.TempSet := mkFailing {| MemoryStateVerifyTempSet.m := None |};
     StateVerifier.TransformFunction := None;
     StateVerifier.stateCorruptedError := None |}.

(** The verifier after [Open] and the [Add]s of the caller. *)
Definition added {T : Type} {tempset : StateVerifyTempSet.StateVerifyTempSet T}
    (v : StateVerifier.StateVerifier T) (entries : list string)
  : StateVerifier.StateVerifier T :=
  match '(_, v0) ← StateVerifier.Open v; StateVerifier.AddAll entries v0 with
  | Ret (_, v1) => v1
  | Panic _ => v
  end.

(** The verifier after [Verify]. *)
Definition verified {T : Type} {tempset : StateVerifyTempSet.StateVerifyTempSet T}
    (v : StateVerifier.StateVerifier T) : StateVerifier.StateVerifier T :=
  match StateVerifier.Verify v with
  | Ret (_, v1) => v1
  | Panic _ => v
  end.

(** Declarations for [transformEntry]: an account id is a string, a signer a
    key with a weight, the discriminants are those of the XDR enum. *)
#[local] Instance decls : expingest.XDRDecls := {|
  expingest.AccountId_t := string;
  expingest.Signer := string * Z;
  expingest.AccountEntry_rest_t := unit;
  expingest.AccountEntry_rest_zero := tt;
  expingest.LedgerEntryData_rest_t := unit;
  expingest.LedgerEntryData_rest_zero := tt;
  expingest.LedgerEntry_rest_t := unit;
  expingest.LedgerEntry_rest_zero := tt;
  expingest.LedgerEntryTypeAccount := 0;
  expingest.LedgerEntryTypeTrustline := 1;
  expingest.LedgerEntryTypeOffer := 2;
  expingest.LedgerEntryTypeData := 3
|}.

Definition MasterKeyWeight (a : expingest.AccountEntry) : Byte.byte :=
  expingest.Thresholds_0 (expingest.Thresholds a).

Fixpoint insertSigner (x : string * Z) (l : list (string * Z)) : list (string * Z) :=
  match l with
  | [] => [x]
  | y :: l' => if String.leb x.1 y.1 then x :: l else y :: insertSigner x l'
  end.

Definition SortSignersByKey (l : list (string * Z)) : list (string * Z) :=
  foldr insertSigner [] l.

(** A ledger entry of a type the switch does not know. *)
Definition unknown_entry : expingest.LedgerEntry :=
  {| expingest.Data :=
       {| expingest.Type_ := 4; expingest.Account := None;
          expingest.LedgerEntryData_rest := tt |};
     expingest.LedgerEntry_rest := tt |}.

(** The two results of a run. *)
Definition verdict {T : Type}
    (res : Result ((bool * option error) * StateVerifier.StateVerifier T))
  : Result (bool * option error) :=
  '(x, _) ← res; Ret x.

End Scenario.

(** ** More vocabulary *)

Section MoreVocabulary.
Context {xdr : XDR} {T : Type}.

(** The verifier built with another transform function. *)
Definition with_TransformFunction
    (f : option StateVerifier.TransformLedgerEntryFunction)
    (v : StateVerifier.StateVerifier T) : StateVerifier.StateVerifier T :=
  {| StateVerifier.StateReader := StateVerifier.StateReader v;
     StateVerifier.TempSet := StateVerifier.TempSet v;
     StateVerifier.TransformFunction := f;
     StateVerifier.stateCorruptedError := StateVerifier.stateCorruptedError v |}.

(** The transform function that keeps every record as it is. *)
Definition keep_all : StateVerifier.TransformLedgerEntryFunction :=
  fun entry => Ret (false, entry).

End MoreVocabulary.

(** ** verify.go: [addAccountsToStateVerifier]

    The rows of the query come from [database/sql] and the query itself from
    the [history] package ([StreamAccounts], which only builds the SELECT and
    runs it).  Neither can be run here; what is modelled of them is what the
    function sees: the query answers with an error or with rows, and rows are
    a cursor that gives, for each [Next], what [Scan] makes of the row, and
    at the end what [Err] reports.  [defer rows.Close()] does not touch the
    verifier and is left out. *)

Module history.

(** [history.AccountSigner]: the three columns the function scans. *)
Record AccountSigner : Type := mkAccountSigner {
  Account : string;
  Signer : string;
  Weight : Z
}.

(** [*sql.Rows]: the rows still to come, each as [Scan] will deliver it, and
    the error [Err] reports once [Next] has answered false. *)
Record Rows : Type := mkRows {
  pending : list (AccountSigner + error);
  Err : option error
}.

(** [*history.Q], as far as [StreamAccounts] goes: what the query answers. *)
Record Q : Type := mkQ {
  StreamAccounts : Rows + error
}.

End history.

Module accounts.

(** What the function uses of [xdr] and of [support/errors] besides the
    declarations of [transformEntry]: the type of a signer key, the
    conversions of addresses (the Must ones panic on a malformed string,
    [Address] on an id it cannot render), the struct literal of a signer,
    [errors.Wrap], and, to hand the entries to the verifier, the encoding of
    a ledger entry and the changes a state reader delivers. *)
Class XDRFuncs {decls : expingest.XDRDecls} : Type := {
  SignerKey_t : Type;
  MustAddress : string -> Result expingest.AccountId_t;
  Address : expingest.AccountId_t -> Result string;
  MustSigner : string -> Result SignerKey_t;
  (** [xdr.Signer{Key: key, Weight: weight}] *)
  mkSigner : SignerKey_t -> Z -> expingest.Signer;
  MasterKeyWeight : expingest.AccountEntry -> Byte.byte;
  SortSignersByKey : list expingest.Signer -> list expingest.Signer;
  Wrap : error -> string -> error;
  LedgerEntryChange_t : Type;
  MustState_ : LedgerEntryChange_t -> Result expingest.LedgerEntry;
  MarshalBinary_ : expingest.LedgerEntry -> list Byte.byte * option error
}.

(** The verifier's view of [xdr] when its entries are ledger entries. *)
Definition ledger_xdr {decls : expingest.XDRDecls} {funcs : XDRFuncs} : XDR :=
  {| LedgerEntry := expingest.LedgerEntry;
     LedgerEntryChange := LedgerEntryChange_t;
     MustState := MustState_;
     MarshalBinary := MarshalBinary_ |}.

Section addAccounts.
Context {decls : expingest.XDRDecls} {funcs : XDRFuncs} {digest : Digest}
  {T : Type} {tempset : StateVerifyTempSet.StateVerifyTempSet T}.

#[local] Existing Instance ledger_xdr.

(** [byte(row.Weight)]: the low eight bits of an int32. *)
Definition byte_of_int32 (w : Z) : Byte.byte :=
  match Byte.of_N (Z.to_N (w mod 256)) with
  | Some b => b
  | None => Byte.x00
  end.

(** [xdr.Uint32(row.Weight)]: an int32 read as unsigned. *)
Definition Uint32_of_int32 (w : Z) : Z := w mod 2 ^ 32.

Definition Thresholds_zero : Byte.byte * Byte.byte * Byte.byte * Byte.byte :=
  (Byte.x00, Byte.x00, Byte.x00, Byte.x00).

Definition set_Signers (l : list expingest.Signer) (a : expingest.AccountEntry)
  : expingest.AccountEntry :=
  {| expingest.AccountId := expingest.AccountId a;
     expingest.Thresholds := expingest.Thresholds a;
     expingest.Signers := l;
     expingest.AccountEntry_rest := expingest.AccountEntry_rest a |}.

Definition set_Thresholds (t : Byte.byte * Byte.byte * Byte.byte * Byte.byte)
    (a : expingest.AccountEntry) : expingest.AccountEntry :=
  {| expingest.AccountId := expingest.AccountId a;
     expingest.Thresholds := t;
     expingest.Signers := expingest.Signers a;
     expingest.AccountEntry_rest := expingest.AccountEntry_rest a |}.

(** [xdr.LedgerEntry{Data: xdr.LedgerEntryData{Type:
    xdr.LedgerEntryTypeAccount, Account: account}}] *)
Definition accountLedgerEntry (account : option expingest.AccountEntry)
  : expingest.LedgerEntry :=
  {| expingest.Data :=
       {| expingest.Type_ := expingest.LedgerEntryTypeAccount;
          expingest.Account := account;
          expingest.LedgerEntryData_rest := expingest.LedgerEntryData_rest_zero |};
     expingest.LedgerEntry_rest := expingest.LedgerEntry_rest_zero |}.

(** [&xdr.AccountEntry{AccountId: id, Signers: []xdr.Signer{}}] *)
Definition newAccountEntry (id : expingest.AccountId_t) : expingest.AccountEntry :=
  {| expingest.AccountId := id;
     expingest.Thresholds := Thresholds_zero;
     expingest.Signers := [];
     expingest.AccountEntry_rest := expingest.AccountEntry_rest_zero |}.

(** The body of the loop over the rows, after [Next] has answered true and
    [Scan] has given [scanned]. It ends with the account the next pass
    starts from ([inl]), or by returning an error ([inr]). *)
Definition addAccounts_body (scanned : history.AccountSigner + error)
    (account : option expingest.AccountEntry) (v : StateVerifier.StateVerifier T)
  : Result ((option expingest.AccountEntry + error) * StateVerifier.StateVerifier T) :=
  match scanned with
  | inr err => Ret (inr (Wrap err "rows.Scan returned error"), v)
  | inl row =>
      differs ←
        match account with
        | None => Ret true
        | Some a =>
            address ← Address (expingest.AccountId a);
            Ret (negb (String.eqb address (history.Account row)))
        end;
      '(started, v) ←
        (if (differs : bool) then
           '(err, v) ←
             match account with
             | Some a =>
                 let a := set_Signers (SortSignersByKey (expingest.Signers a)) a in
                 StateVerifier.Add (accountLedgerEntry (Some a)) v
             | None => Ret (None, v)
             end;
           match err with
           | Some e => Ret (inr e, v)
           | None =>
               id ← MustAddress (history.Account row);
               Ret (inl (Some (newAccountEntry id)), v)
           end
         else Ret (inl account, v));
      match started with
      | inr e => Ret (inr e, v)
      | inl None =>
          (* not reached: a nil account was replaced above *)
          Panic "invalid memory address or nil pointer dereference"
      | inl (Some a) =>
          if String.eqb (history.Account row) (history.Signer row) then
            Ret (inl (Some (set_Thresholds
                              (byte_of_int32 (history.Weight row),
                               Byte.x00, Byte.x00, Byte.x00) a)), v)
          else
            key ← MustSigner (history.Signer row);
            Ret (inl (Some (set_Signers
                              (expingest.Signers a ++
                               [mkSigner key (Uint32_of_int32 (history.Weight row))])
                              a)), v)
      end
  end.

(** [for rows.Next() { ... }] *)
Fixpoint addAccounts_loop (pending : list (history.AccountSigner + error))
    (account : option expingest.AccountEntry) (v : StateVerifier.StateVerifier T)
  : Result ((option expingest.AccountEntry + error) * StateVerifier.StateVerifier T) :=
  match pending with
  | [] => Ret (inl account, v)
  | scanned :: pending' =>
      '(res, v) ← addAccounts_body scanned account v;
      match res with
      | inr e => Ret (inr e, v)
      | inl account' => addAccounts_loop pending' account' v
      end
  end.

Definition addAccountsToStateVerifier (verifier : StateVerifier.StateVerifier T)
    (q : history.Q) : Result (option error * StateVerifier.StateVerifier T) :=
  match history.StreamAccounts q with
  | inr err => Ret (Some (Wrap err "Error running history.Q.StreamAccounts"), verifier)
  | inl rows =>
      '(res, verifier) ← addAccounts_loop (history.pending rows) None verifier;
      match res with
      | inr e => Ret (Some e, verifier)
      | inl account =>
          match history.Err rows with
          | Some err => Ret (Some (Wrap err "rows.Err returned error"), verifier)
          | None =>
              (* Add last created in a loop account *)
              StateVerifier.Add (T := T) (accountLedgerEntry account) verifier
          end
      end
  end.

End addAccounts.

(** *** The rows read as a list of accounts *)

Section Grouping.
Context {decls : expingest.XDRDecls} {funcs : XDRFuncs}.

(** The rows in runs of one account: [group_from current account rows] has
    the run [current] of [account] under way. *)
Fixpoint group_from (current : list history.AccountSigner) (account : string)
    (rows : list history.AccountSigner) : list (list history.AccountSigner) :=
  match rows with
  | [] => [current]
  | row :: rows' =>
      if String.eqb account (history.Account row)
      then group_from (current ++ [row]) account rows'
      else current :: group_from [row] (history.Account row) rows'
  end.

Definition group_rows (rows : list history.AccountSigner)
  : list (list history.AccountSigner) :=
  match rows with
  | [] => []
  | row :: rows' => group_from [row] (history.Account row) rows'
  end.

(** What one row adds to its account: the master weight when the signer is
    the account itself, a signer otherwise. *)
Definition absorb (signerKey : string -> SignerKey_t)
    (a : expingest.AccountEntry) (row : history.AccountSigner)
  : expingest.AccountEntry :=
  if String.eqb (history.Account row) (history.Signer row) then
    set_Thresholds
      (byte_of_int32 (history.Weight row), Byte.x00, Byte.x00, Byte.x00) a
  else
    set_Signers
      (expingest.Signers a ++
       [mkSigner (signerKey (history.Signer row))
          (Uint32_of_int32 (history.Weight row))]) a.

(** The signers the rows of a run name, in the order of the rows. *)
Definition signers_of_rows (signerKey : string -> SignerKey_t)
    (run : list history.AccountSigner) : list expingest.Signer :=
  map (fun row => mkSigner (signerKey (history.Signer row))
                    (Uint32_of_int32 (history.Weight row)))
      (filter (fun row => history.Account row ≠ history.Signer row) run).

(** The account entry of a run of rows; nil for no row at all. *)
Definition account_of_rows (address : string -> expingest.AccountId_t)
    (signerKey : string -> SignerKey_t) (run : list history.AccountSigner)
  : option expingest.AccountEntry :=
  match run with
  | [] => None
  | row :: _ =>
      Some (foldl (absorb signerKey)
              (newAccountEntry (address (history.Account row))) run)
  end.

Definition sorted (a : expingest.AccountEntry) : expingest.AccountEntry :=
  set_Signers (SortSignersByKey (expingest.Signers a)) a.

(** The entries of the runs that are followed by another run: these have
    their signers sorted. *)
Definition closed_entries (address : string -> expingest.AccountId_t)
    (signerKey : string -> SignerKey_t) (runs : list (list history.AccountSigner))
  : list expingest.LedgerEntry :=
  map (fun run => accountLedgerEntry (sorted <$> account_of_rows address signerKey run))
      (removelast runs).

(** The entry of the last run: its signers stay in the order of the rows. *)
Definition last_entry (address : string -> expingest.AccountId_t)
    (signerKey : string -> SignerKey_t) (runs : list (list history.AccountSigner))
  : expingest.LedgerEntry :=
  accountLedgerEntry (account_of_rows address signerKey (List.last runs [])).

(** The strings of the rows are ones [xdr] can convert: each account is an
    address that converts to an id and back, each signer that is not the
    account itself a signer key. *)
Definition convertible (address : string -> expingest.AccountId_t)
    (signerKey : string -> SignerKey_t) (rows : list history.AccountSigner)
  : Prop :=
  Forall (fun row =>
    MustAddress (history.Account row) = Ret (address (history.Account row))
    ∧ Address (address (history.Account row)) = Ret (history.Account row)
    ∧ (String.eqb (history.Account row) (history.Signer row) = false ->
       MustSigner (history.Signer row) = Ret (signerKey (history.Signer row))))
    rows.

End Grouping.

End accounts.

(** ** verify.go: [verifyState]

    The function talks to a database session, to the history archive and to
    the clock.  What it gets back from them is gathered in a record, one
    field per call; logging and [time.Sleep] leave no trace in what the
    function returns and are left out.  The deferred function runs on every
    way out, a panic too, so the result comes with the system as the
    deferred function leaves it.  [defer verifier.Close()] closes a set that
    nothing can reach once the function is left; it is left out.
    [panic(true)] is [Panic "true"]: the panic value as the runtime prints
    it. *)

Module system.
Section verifyState.
Context {decls : expingest.XDRDecls} {funcs : accounts.XDRFuncs} {digest : Digest}.

#[local] Existing Instance accounts.ledger_xdr.

(** What [verifyState] reads and writes of [*System]. *)
Record System : Type := mkSystem {
  stateVerificationRunning : bool
}.

(** What the collaborators answer: [session.BeginTx],
    [historyQ.GetLastLedgerExpIngestNonBlocking],
    [historyarchive.IsCheckpoint], [io.MakeSingleLedgerStateReader] at a
    ledger, and the query of [addAccountsToStateVerifier]. *)
Record World : Type := mkWorld {
  BeginTx : option error;
  GetLastLedgerExpIngestNonBlocking : Z * option error;
  IsCheckpoint : Z -> bool;
  MakeSingleLedgerStateReader :
    Z -> StateVerifier.SingleLedgerStateReader (xdr := accounts.ledger_xdr) + error;
  historyQ : history.Q
}.

(** [&verify.StateVerifier{StateReader: stateReader, TempSet:
    &verify.MemoryStateVerifyTempSet{}, TransformFunction: transformEntry}] *)
Definition newStateVerifier
    (stateReader : StateVerifier.SingleLedgerStateReader (xdr := accounts.ledger_xdr))
  : StateVerifier.StateVerifier (xdr := accounts.ledger_xdr)
      MemoryStateVerifyTempSet.MemoryStateVerifyTempSet :=
  {| StateVerifier.StateReader := stateReader;
     StateVerifier.TempSet := {| MemoryStateVerifyTempSet.m := None |};
     StateVerifier.TransformFunction :=
       Some (expingest.transformEntry accounts.MasterKeyWeight
               accounts.SortSignersByKey);
     StateVerifier.stateCorruptedError := None |}.

(** The function from [session.BeginTx] on. *)
Definition verifyState_run (w : World) : Result (option error) :=
  match BeginTx w with
  | Some err => Ret (Some (accounts.Wrap err "Error starting transaction"))
  | None =>
      let '(ledgerSequence, err) := GetLastLedgerExpIngestNonBlocking w in
      match err with
      | Some e => Ret (Some e)
      | None =>
          if negb (IsCheckpoint w ledgerSequence) then Ret None
          else
            match MakeSingleLedgerStateReader w ledgerSequence with
            | inr err =>
                Ret (Some (accounts.Wrap err
                             "Error running io.MakeSingleLedgerStateReader"))
            | inl stateReader =>
                let verifier := newStateVerifier stateReader in
                '(err, verifier) ← StateVerifier.Open verifier;
                match err with
                | Some e =>
                    Ret (Some (accounts.Wrap e "Error opening StateVerifier"))
                | None =>
                    '(err, verifier) ←
                      accounts.addAccountsToStateVerifier verifier (historyQ w);
                    match err with
                    | Some e =>
                        Ret (Some (accounts.Wrap e
                                     "addAccountsToStateVerifier failed"))
                    | None =>
                        '((ok, err), verifier) ← StateVerifier.Verify verifier;
                        match err with
                        | Some e =>
                            Ret (Some (accounts.Wrap e
                                         "Error running verifier.Verify"))
                        | None =>
                            if negb ok then Panic "true" else Ret None
                        end
                    end
                end
            end
      end
  end.

Definition verifyState (s : System) (w : World) : System * Result (option error) :=
  if stateVerificationRunning s then (s, Ret None)
  else
    (* s.stateVerificationRunning = true *)
    let result := verifyState_run w in
    (* deferred: s.stateVerificationRunning = false *)
    ({| stateVerificationRunning := false |}, result).

(** The entries [addAccountsToStateVerifier] adds for rows that all scan. *)
Definition local_entries (address : string -> expingest.AccountId_t)
    (signerKey : string -> accounts.SignerKey_t)
    (rows : list history.AccountSigner) : list expingest.LedgerEntry :=
  accounts.closed_entries address signerKey (accounts.group_rows rows)
  ++ [accounts.last_entry address signerKey (accounts.group_rows rows)].

(** A world in which nothing fails before the verifier is built: the
    transaction starts, the last ledger is [ledgerSequence] and a
    checkpoint, the archive gives [stateReader], and the query gives [rows],
    all of which scan. *)
Definition ready (w : World) (ledgerSequence : Z)
    (stateReader : StateVerifier.SingleLedgerStateReader (xdr := accounts.ledger_xdr))
    (rows : list history.AccountSigner) : Prop :=
  BeginTx w = None
  ∧ GetLastLedgerExpIngestNonBlocking w = (ledgerSequence, None)
  ∧ IsCheckpoint w ledgerSequence = true
  ∧ MakeSingleLedgerStateReader w ledgerSequence = inl stateReader
  ∧ historyQ w
    = {| history.StreamAccounts :=
           inl {| history.pending := map inl rows; history.Err := None |} |}.

End verifyState.
End system.

(** A small instance for the rows: ids and signer keys are the strings
    themselves, the empty string is malformed, and a ledger entry is encoded
    by writing its account out. *)

Module AccountsScenario.

#[local] Existing Instance Scenario.decls.

Definition must (s : string) : Result string :=
  if String.eqb s "" then Panic "invalid address" else Ret s.

Definition encodeSigner (sg : string * Z) : list Byte.byte :=
  list_byte_of_string sg.1 ++ [Byte.x00; accounts.byte_of_int32 sg.2].

Definition encode (entry : expingest.LedgerEntry (decls := Scenario.decls))
  : list Byte.byte * option error :=
  match expingest.Account (expingest.Data entry) with
  | None => ([], Some (errNew "xdr: nil account"))
  | Some a =>
      (list_byte_of_string (expingest.AccountId a)
       ++ [Byte.x00; expingest.Thresholds_0 (expingest.Thresholds a)]
       ++ concat (map encodeSigner (expingest.Signers a)), None)
  end.

#[local] Instance funcs : accounts.XDRFuncs (decls := Scenario.decls) := {|
  accounts.SignerKey_t := string;
  accounts.MustAddress := must;
  accounts.Address := fun a => Ret a;
  accounts.MustSigner := must;
  accounts.mkSigner := fun key weight => (key, weight);
  accounts.MasterKeyWeight := Scenario.MasterKeyWeight;
  accounts.SortSignersByKey := Scenario.SortSignersByKey;
  accounts.Wrap := fun err msg => errNew (msg +:+ ": " +:+ Error err);
  accounts.LedgerEntryChange_t :=
    option (expingest.LedgerEntry (decls := Scenario.decls));
  accounts.MustState_ := fun c =>
    match c with
    | Some e => Ret e
    | None => Panic "arm State is not set"
    end;
  accounts.MarshalBinary_ := encode
|}.

(** Ids and signer keys are the strings themselves. *)
Definition address (s : string) : expingest.AccountId_t := s.
Definition signerKey (s : string) : accounts.SignerKey_t := s.

Definition row (account signer : string) (weight : Z) : history.AccountSigner :=
  {| history.Account := account; history.Signer := signer;
     history.Weight := weight |}.

(** Two accounts: GA with its master key and the signers GZ and GB, in this
    order, then GC with the signers GY and GD. *)
Definition two_accounts : list history.AccountSigner :=
  [row "GA" "GA" 1; row "GA" "GZ" 2; row "GA" "GB" 3;
   row "GC" "GY" 5; row "GC" "GD" 4].

Definition query (scanned : list (history.AccountSigner + error))
    (err : option error) : history.Q :=
  {| history.StreamAccounts :=
       inl {| history.pending := scanned; history.Err := err |} |}.

(** An open verifier on the in-memory set, nothing added yet. *)
Definition opened
  : StateVerifier.StateVerifier (xdr := accounts.ledger_xdr)
      MemoryStateVerifyTempSet.MemoryStateVerifyTempSet :=
  {| StateVerifier.StateReader := [];
     StateVerifier.TempSet := {| MemoryStateVerifyTempSet.m := Some ∅ |};
     StateVerifier.TransformFunction := None;
     StateVerifier.stateCorruptedError := None |}.

(** The same accounts with the rows of GC in the order of their keys. *)
Definition in_order : list history.AccountSigner :=
  [row "GA" "GA" 1; row "GA" "GZ" 2; row "GA" "GB" 3;
   row "GC" "GD" 4; row "GC" "GY" 5].

Definition account (id : string)
    (thresholds : Byte.byte * Byte.byte * Byte.byte * Byte.byte)
    (signers : list (string * Z)) : expingest.LedgerEntry :=
  {| expingest.Data :=
       {| expingest.Type_ := 0;
          expingest.Account := Some
            {| expingest.AccountId := id;
               expingest.Thresholds := thresholds;
               expingest.Signers := signers;
               expingest.AccountEntry_rest := tt |};
          expingest.LedgerEntryData_rest := tt |};
     expingest.LedgerEntry_rest := tt |}.

Definition trustline : expingest.LedgerEntry :=
  {| expingest.Data :=
       {| expingest.Type_ := 1; expingest.Account := None;
          expingest.LedgerEntryData_rest := tt |};
     expingest.LedgerEntry_rest := tt |}.

(** The two accounts as the archive has them: other thresholds are set, the
    signers are in no particular order. *)
Definition archive_GA : expingest.LedgerEntry :=
  account "GA" (Byte.x01, Byte.x09, Byte.x09, Byte.x09) [("GZ", 2%Z); ("GB", 3%Z)].

Definition archive_GC : expingest.LedgerEntry :=
  account "GC" (Byte.x00, Byte.x02, Byte.x02, Byte.x02) [("GY", 5%Z); ("GD", 4%Z)].

(** A world in which nothing fails: the last ledger is the checkpoint 63,
    the archive delivers [stream], the query gives [rows]. *)
Definition world (stream : list (option expingest.LedgerEntry + error))
    (rows : list history.AccountSigner) : system.World :=
  {| system.BeginTx := None;
     system.GetLastLedgerExpIngestNonBlocking := (63%Z, None);
     system.IsCheckpoint := fun seq => Z.eqb ((seq + 1) mod 64) 0;
     system.MakeSingleLedgerStateReader := fun _ => inl stream;
     system.historyQ := query (map inl rows) None |}.

(** The keys of a list of entries, and of a stream after [transformEntry]. *)
Definition keys_of (entries : list expingest.LedgerEntry) : list string :=
  default [] (local_keys (xdr := accounts.ledger_xdr) (digest := Scenario.digest)
                entries).

Definition stream_keys_of (stream : list (option expingest.LedgerEntry))
  : list string :=
  default []
    (stream_keys (xdr := accounts.ledger_xdr) (digest := Scenario.digest)
       (Some (expingest.transformEntry Scenario.MasterKeyWeight
                Scenario.SortSignersByKey)) stream).

End AccountsScenario.

(** * Properties *)

(** ** Substrings *)

Section Substrings.

Lemma prefix_append (sub rest : string) : String.prefix sub (sub +:+ rest) = true.
Proof.
  induction sub as [| c sub IH]; simpl; [by destruct rest |].
  by destruct (ascii_dec c c).
Qed.

Lemma Contains_prefix (s sub : string) :
  String.prefix sub s = true -> Contains s sub = true.
Proof. intros Hp. destruct s; cbn [Contains]; by rewrite Hp. Qed.

Lemma Contains_here (sub rest : string) : Contains (sub +:+ rest) sub = true.
Proof. apply Contains_prefix, prefix_append. Qed.

Lemma Contains_append_l (before s sub : string) :
  Contains s sub = true -> Contains (before +:+ s) sub = true.
Proof.
  intros Hs. induction before as [| c before IH]; simpl; [done |].
  rewrite IH. apply orb_true_r.
Qed.

Lemma corruptedMessage_Contains_key (preTransform transformed key : string) :
  Contains (StateVerifier.corruptedMessage preTransform transformed key) key
  = true.
Proof.
  unfold StateVerifier.corruptedMessage.
  do 5 apply Contains_append_l. apply Contains_here.
Qed.

End Substrings.

(** ** The in-memory set *)

Section MemorySet.
Import MemoryStateVerifyTempSet.

Lemma Add_absent (key : string) (g : gmap string bool) :
  g !! key = None ->
  Add key {| m := Some g |} = Ret (None, {| m := Some (<[key := true]> g) |}).
Proof. intros Hg. unfold Add; simpl. by rewrite Hg. Qed.

Lemma Add_present (key : string) (g : gmap string bool) :
  is_Some (g !! key) ->
  Add key {| m := Some g |} = Ret (Some errKeyAlreadyExists, {| m := Some g |}).
Proof. intros [b Hb]. unfold Add; simpl. by rewrite Hb. Qed.

Lemma Remove_absent (key : string) (g : gmap string bool) :
  g !! key = None ->
  Remove key {| m := Some g |} = Ret (Some errKeyNotFound, {| m := Some g |}).
Proof. intros Hg. unfold Remove; simpl. by rewrite Hg. Qed.

Lemma Remove_present (key : string) (g : gmap string bool) :
  is_Some (g !! key) ->
  Remove key {| m := Some g |} = Ret (None, {| m := Some (base.delete key g) |}).
Proof. intros [b Hb]. unfold Remove; simpl. by rewrite Hb. Qed.

Lemma IsEmpty_open (g : gmap string bool) :
  IsEmpty {| m := Some g |}
  = Ret ((bool_decide (dom g = ∅), None), {| m := Some g |}).
Proof.
  unfold IsEmpty; simpl. do 3 f_equal.
  destruct (Nat.eqb_spec (size g) 0) as [Hz | Hnz].
  - apply map_size_empty_inv in Hz. subst g.
    rewrite dom_empty_L. by rewrite bool_decide_eq_true_2.
  - rewrite bool_decide_eq_false_2; [done |].
    intros Hd. apply dom_empty_inv_L in Hd. subst g.
    by rewrite map_size_empty in Hnz.
Qed.

Lemma dom_delete_all (ks : list string) (g : gmap string bool) :
  dom (delete_all ks g) = dom g ∖ list_to_set ks.
Proof.
  revert g. induction ks as [| k ks IH]; intros g; simpl.
  - set_solver.
  - rewrite IH, dom_delete_L. set_solver.
Qed.

(** After any [Add]s on an open set the map is still there, and it holds
    what was there before and the keys added. *)
Lemma Adds_open (ks : list string) (g : gmap string bool) :
  ∃ g', Adds ks {| m := Some g |} = Ret {| m := Some g' |}
        ∧ dom g' = dom g ∪ list_to_set ks.
Proof.
  revert g. induction ks as [| k ks IH]; intros g; simpl.
  - exists g. split; [done | set_solver].
  - destruct (g !! k) as [b |] eqn:Hk.
    + rewrite Add_present by eauto. simpl.
      destruct (IH g) as (g' & -> & Hd). exists g'. split; [done |].
      apply (elem_of_dom_2 (D := gset string)) in Hk. set_solver.
    + rewrite Add_absent by done. simpl.
      destruct (IH (<[k := true]> g)) as (g' & -> & Hd). exists g'.
      split; [done |]. rewrite Hd, dom_insert_L. set_solver.
Qed.

Lemma Removes_open (ks : list string) (g : gmap string bool) :
  ∃ g', Removes ks {| m := Some g |} = Ret {| m := Some g' |}
        ∧ dom g' = dom g ∖ list_to_set ks.
Proof.
  revert g. induction ks as [| k ks IH]; intros g; simpl.
  - exists g. split; [done | set_solver].
  - destruct (g !! k) as [b |] eqn:Hk.
    + rewrite Remove_present by eauto. simpl.
      destruct (IH (base.delete k g)) as (g' & -> & Hd). exists g'.
      split; [done |]. rewrite Hd, dom_delete_L. set_solver.
    + rewrite Remove_absent by done. simpl.
      destruct (IH g) as (g' & -> & Hd). exists g'. split; [done |].
      apply (not_elem_of_dom_2 (D := gset string)) in Hk. set_solver.
Qed.

(** C9. After [Open], whatever keys are added and then removed, the
    in-memory set holds the keys added and not removed, and in that state:
    [Remove key] fails with [errKeyNotFound] (leaving the set as it is)
    exactly when [key] is absent, and otherwise succeeds and deletes [key]
    alone; [IsEmpty] never fails and answers [true] exactly when no key is
    held. *)
Theorem memory_set_contract
    (adds removes : list string) (s0 : MemoryStateVerifyTempSet) :
  ∃ s, OpenAddsRemoves adds removes s0 = Ret s
    ∧ held s = list_to_set adds ∖ list_to_set removes
    ∧ (∀ key,
         (Remove key s = Ret (Some errKeyNotFound, s) ↔ key ∉ held s)
         ∧ (key ∈ held s ->
              ∃ s', Remove key s = Ret (None, s')
                    ∧ held s' = held s ∖ {[key]}))
    ∧ (∃ empty, IsEmpty s = Ret ((empty, None), s)
                ∧ (empty = true ↔ held s = ∅)).
Proof.
  unfold OpenAddsRemoves; simpl.
  destruct (Adds_open adds ∅) as (g1 & -> & Hd1). simpl.
  destruct (Removes_open removes g1) as (g2 & -> & Hd2).
  exists {| m := Some g2 |}. unfold held; simpl.
  split; [done |]. split; [rewrite Hd2, Hd1, dom_empty_L; set_solver |].
  split.
  - intros key. destruct (g2 !! key) as [b |] eqn:Hk.
    + assert (key ∈ dom g2) by (apply elem_of_dom; eauto).
      rewrite Remove_present by eauto. split.
      * split; [intros [=] | done].
      * intros _. eexists. split; [done |]. simpl. by rewrite dom_delete_L.
    + assert (key ∉ dom g2) by (by apply not_elem_of_dom).
      rewrite Remove_absent by done. split; [done | done].
  - rewrite IsEmpty_open. eexists. split; [done |].
    by rewrite bool_decide_eq_true.
Qed.

End MemorySet.

(** ** The verifier, over any implementation of the set *)

Section Verifier.
Context {xdr : XDR} {digest : Digest}
  {T : Type} {tempset : StateVerifyTempSet.StateVerifyTempSet T}.
Import StateVerifier.

Implicit Types (v : StateVerifier T) (r : SingleLedgerStateReader).

Lemma entryToKey_Some (entry : LedgerEntry) (key : string) v :
  fingerprint entry = Some key -> entryToKey entry v = ((key, None), v).
Proof.
  unfold fingerprint, entryToKey.
  destruct (MarshalBinary entry) as [b [e |]]; [done |].
  by intros [= <-].
Qed.

Lemma entryToKey_None (entry : LedgerEntry) v :
  fingerprint entry = None ->
  ∃ e, entryToKey entry v = (("", Some e), v).
Proof.
  unfold fingerprint, entryToKey.
  destruct (MarshalBinary entry) as [b [e |]]; [eauto | done].
Qed.

(** The loop is: read, run the body, go on while the body says so. *)
Lemma Verify_loop_Read r v :
  Verify_loop r v =
  let '(res, r') := Read r in
  '(fl, v') ← Verify_body res (set_StateReader r' v);
  match fl with
  | Continue => Verify_loop r' v'
  | _ => Ret (fl, v')
  end.
Proof.
  destruct r as [| res r']; simpl; [| done].
  by destruct (decide (EOF = EOF)).
Qed.

Lemma Verify_loop_cons (res : LedgerEntryChange + error) r v :
  Verify_loop (res :: r) v =
  '(fl, v') ← Verify_body res (set_StateReader r v);
  match fl with
  | Continue => Verify_loop r v'
  | _ => Ret (fl, v')
  end.
Proof. done. Qed.

(** The loop writes the reader before it looks at the verifier. *)
Lemma Verify_loop_set_StateReader r r0 v :
  Verify_loop r (set_StateReader r0 v) = Verify_loop r v.
Proof. by destruct r. Qed.

Lemma Verify_loop_set_StateReader_eq r r1 r2 v1 v2 :
  set_StateReader r1 v1 = set_StateReader r2 v2 ->
  Verify_loop r v1 = Verify_loop r v2.
Proof.
  intros Heq.
  rewrite <- (Verify_loop_set_StateReader r r1 v1).
  rewrite <- (Verify_loop_set_StateReader r r2 v2).
  by rewrite Heq.
Qed.

(** The body never reads the reader kept in the verifier. *)
Lemma Verify_body_set_StateReader res r v :
  Verify_body res (set_StateReader r v) =
  '(fl, v') ← Verify_body res v; Ret (fl, set_StateReader r v').
Proof.
  destruct res as [entryChange | err]; simpl.
  - destruct (MustState entryChange) as [entry | msg]; simpl; [| done].
    destruct (match TransformFunction v with
              | Some f => f entry
              | None => Ret (false, entry)
              end) as [[ignore entry'] | msg]; simpl; [| done].
    destruct ignore; [done |].
    unfold entryToKey.
    destruct (MarshalBinary entry') as [b [e |]]; simpl; [done |].
    destruct (StateVerifyTempSet.Remove _ (TempSet v)) as [[[e |] t] | msg];
      simpl; [| done | done].
    destruct (decide (e = errKeyNotFound)); [| done].
    by destruct (MarshalBinary entry).
  - by destruct (decide (err = EOF)).
Qed.

(** An abort inside the loop leaves the diagnosis as it was: a failed read,
    a record without encoding, a [Remove] failing with something else than
    [errKeyNotFound]. *)
Lemma Verify_body_abort_keeps_StateError res v v' (e : error) :
  Verify_body res v = Ret (Return true (Some e), v') ->
  StateError v' = StateError v.
Proof.
  destruct res as [entryChange | err]; simpl.
  - destruct (MustState entryChange) as [entry | msg]; simpl; [| done].
    destruct (match TransformFunction v with
              | Some f => f entry
              | None => Ret (false, entry)
              end) as [[ignore entry'] | msg]; simpl; [| done].
    destruct ignore; [done |].
    unfold entryToKey.
    destruct (MarshalBinary entry') as [b [e' |]]; simpl; [by intros [= _ <-] |].
    destruct (StateVerifyTempSet.Remove _ (TempSet v)) as [[[e' |] t] | msg];
      simpl; [| done | done].
    destruct (decide (e' = errKeyNotFound)); [| by intros [= _ <-]].
    by destruct (MarshalBinary entry).
  - destruct (decide (err = EOF)); [done | by intros [= _ <-]].
Qed.

Lemma Verify_body_Continue_keeps_StateError res v v' :
  Verify_body res v = Ret (Continue, v') ->
  StateError v' = StateError v.
Proof.
  destruct res as [entryChange | err]; simpl.
  - destruct (MustState entryChange) as [entry | msg]; simpl; [| done].
    destruct (match TransformFunction v with
              | Some f => f entry
              | None => Ret (false, entry)
              end) as [[ignore entry'] | msg]; simpl; [| done].
    destruct ignore; [by intros [= <-] |].
    unfold entryToKey.
    destruct (MarshalBinary entry') as [b [e' |]]; simpl; [done |].
    destruct (StateVerifyTempSet.Remove _ (TempSet v)) as [[[e' |] t] | msg];
      simpl; [| by intros [= <-] | done].
    destruct (decide (e' = errKeyNotFound)); [| done].
    by destruct (MarshalBinary entry).
  - by destruct (decide (err = EOF)).
Qed.

Lemma Verify_loop_abort_keeps_StateError r v v' (e : error) :
  Verify_loop r v = Ret (Return true (Some e), v') ->
  StateError v' = StateError v.
Proof.
  revert v. induction r as [| res r IH]; intros v; simpl.
  - by destruct (decide (EOF = EOF)).
  - destruct (Verify_body res (set_StateReader r v)) as [[fl v1] | msg] eqn:Hb;
      simpl; [| done].
    destruct fl as [| | ok err].
    + intros Hl. apply IH in Hl. rewrite Hl.
      by apply Verify_body_Continue_keeps_StateError in Hb.
    + done.
    + intros [= -> -> ->].
      by apply Verify_body_abort_keeps_StateError in Hb.
Qed.


Lemma Verify_loop_not_Continue r v v' : Verify_loop r v ≠ Ret (Continue, v').
Proof.
  revert v. induction r as [| res r IH]; intros v; simpl.
  - by destruct (decide (EOF = EOF)).
  - destruct (Verify_body res (set_StateReader r v)) as [[fl v1] | msg];
      simpl; [| done].
    destruct fl; [apply IH | done | done].
Qed.

(** Where [Verify] returns (true, err): either inside the loop, and then the
    diagnosis is as it was, or after the loop, because [IsEmpty] failed. *)
Lemma Verify_abort_StateError v v' (e : error) :
  Verify v = Ret ((true, Some e), v') ->
  StateError v' = StateError v
  ∨ ∃ v1 empty t,
      Verify_loop (StateReader v) v = Ret (Break, v1)
      ∧ StateVerifyTempSet.IsEmpty (TempSet v1) = Ret ((empty, Some e), t).
Proof.
  unfold Verify.
  destruct (Verify_loop (StateReader v) v) as [[fl v1] | msg] eqn:Hl;
    simpl; [| done].
  destruct fl as [| | ok err].
  - by apply Verify_loop_not_Continue in Hl.
  - destruct (StateVerifyTempSet.IsEmpty (TempSet v1))
      as [[[empty [e' |]] t] | msg] eqn:He; simpl; [| done | done].
    intros [= -> _]. right. by exists v1, empty, t.
  - intros [= -> -> <-]. left.
    by apply Verify_loop_abort_keeps_StateError in Hl.
Qed.

(** C7. The fingerprint of a record is a function of its canonical encoding
    alone: two records with the same bytes get the same key, whatever the
    state of the verifier at either call, and the call leaves the verifier
    as it found it. *)
Theorem entryToKey_deterministic
    (entry1 entry2 : LedgerEntry) (xdrEncoded : list Byte.byte) v1 v2 :
  MarshalBinary entry1 = (xdrEncoded, None) ->
  MarshalBinary entry2 = (xdrEncoded, None) ->
  (entryToKey entry1 v1).1 = (entryToKey entry2 v2).1
  ∧ (entryToKey entry1 v1).1 = (EncodeToString (Sum256 xdrEncoded), None)
  ∧ (entryToKey entry1 v1).2 = v1
  ∧ (entryToKey entry2 v2).2 = v2.
Proof.
  intros Hm1 Hm2. unfold entryToKey. rewrite Hm1, Hm2. simpl. done.
Qed.

(** C8. [Close] leaves the diagnosis alone: when [Verify] has returned
    (false, nil) with a diagnosis recorded and the set's own [Close]
    returns, [Close] returns what the set returned and [StateError] still
    gives that diagnosis. *)
Theorem Close_keeps_StateError v v1 (diagnosis : error)
    (err : option error) (t : T) :
  Verify v = Ret ((false, None), v1) ->
  StateError v1 = Some diagnosis ->
  StateVerifyTempSet.Close (TempSet v1) = Ret (err, t) ->
  ∃ v2, Close v1 = Ret (err, v2)
        ∧ StateError v2 = Some diagnosis
        ∧ StateError v2 = StateError v1.
Proof.
  intros _ Hd Hc. unfold Close. rewrite Hc. simpl.
  eexists. split; [done |]. simpl. by rewrite <- Hd.
Qed.

Lemma Verify_loop_ignored (f : TransformLedgerEntryFunction)
    (entryChange : LedgerEntryChange) (entry entry' : LedgerEntry) r v :
  MustState entryChange = Ret entry ->
  f entry = Ret (true, entry') ->
  TransformFunction v = Some f ->
  Verify_loop (inl entryChange :: r) v = Verify_loop r v.
Proof.
  intros Hs Hf Ht. simpl. rewrite Hs. simpl. rewrite Ht, Hf. simpl.
  apply Verify_loop_set_StateReader.
Qed.

Lemma Verify_loop_insert_ignored (f : TransformLedgerEntryFunction)
    (entryChange : LedgerEntryChange) (entry entry' : LedgerEntry) r1 r2 v :
  MustState entryChange = Ret entry ->
  f entry = Ret (true, entry') ->
  TransformFunction v = Some f ->
  loop_outcome (Verify_loop (r1 ++ inl entryChange :: r2) v)
  = loop_outcome (Verify_loop (r1 ++ r2) v).
Proof.
  intros Hs Hf. revert v. induction r1 as [| res r1 IH]; intros v Ht.
  - simpl app. by erewrite Verify_loop_ignored.
  - simpl. rewrite !Verify_body_set_StateReader.
    destruct (Verify_body res v) as [[fl v1] | msg] eqn:Hb; simpl; [| done].
    destruct fl as [| | ok err]; [| done | done].
    rewrite !Verify_loop_set_StateReader. apply IH.
    clear -Hb Ht. rewrite <- Ht.
    destruct res as [c | e]; simpl in Hb.
    + destruct (MustState c) as [en | msg]; simpl in Hb; [| done].
      destruct (match TransformFunction v with
                | Some f => f en
                | None => Ret (false, en)
                end) as [[ignore en'] | msg]; simpl in Hb; [| done].
      destruct ignore; [by injection Hb as <- |].
      unfold entryToKey in Hb.
      destruct (MarshalBinary en') as [b [e' |]]; simpl in Hb; [done |].
      destruct (StateVerifyTempSet.Remove _ (TempSet v)) as [[[e' |] t] | msg];
        simpl in Hb; [| by injection Hb as <- | done].
      destruct (decide (e' = errKeyNotFound)); [| done].
      by destruct (MarshalBinary en).
    + by destruct (decide (e = EOF)).
Qed.

(** C6. A record for which the transform function answers ignore = true is
    skipped: the loop at that record is the loop after it (no encoding of
    it is asked for, the set is not called), and putting the record anywhere
    into a stream, or taking it out, changes neither what [Verify] returns
    nor the set nor the diagnosis it leaves; so a stream that yields
    (true, nil) without the record yields (true, nil) with it. *)
Theorem ignored_record_skipped (f : TransformLedgerEntryFunction)
    (entryChange : LedgerEntryChange) (entry entry' : LedgerEntry) v :
  MustState entryChange = Ret entry ->
  f entry = Ret (true, entry') ->
  TransformFunction v = Some f ->
  (∀ r, Verify_loop (inl entryChange :: r) v = Verify_loop r v)
  ∧ (∀ r1 r2,
       outcome (Verify (set_StateReader (r1 ++ inl entryChange :: r2) v))
       = outcome (Verify (set_StateReader (r1 ++ r2) v)))
  ∧ (∀ r1 r2 v2,
       Verify (set_StateReader (r1 ++ r2) v) = Ret ((true, None), v2) ->
       ∃ v2', Verify (set_StateReader (r1 ++ inl entryChange :: r2) v)
              = Ret ((true, None), v2')).
Proof.
  intros Hs Hf Ht.
  assert (∀ r1 r2,
       outcome (Verify (set_StateReader (r1 ++ inl entryChange :: r2) v))
       = outcome (Verify (set_StateReader (r1 ++ r2) v))) as Hout; [| split].
  3: { split; [exact Hout |]. intros r1 r2 v2 Hv.
       specialize (Hout r1 r2). rewrite Hv in Hout.
       destruct (Verify (set_StateReader (r1 ++ inl entryChange :: r2) v))
         as [[x v2'] | msg]; simpl in Hout; [| done].
       injection Hout as -> _ _. by exists v2'. }
  2: { intros r. by eapply Verify_loop_ignored. }
  - intros r1 r2. unfold Verify. simpl StateReader.
    rewrite !Verify_loop_set_StateReader.
    pose proof (Verify_loop_insert_ignored f entryChange entry entry'
                  r1 r2 v Hs Hf Ht) as Hl.
    destruct (Verify_loop (r1 ++ inl entryChange :: r2) v) as [[fl va] | msg];
      destruct (Verify_loop (r1 ++ r2) v) as [[fl' vb] | msg'];
      simpl in Hl; try done.
    + injection Hl as <- Ht' _ He.
      simpl. destruct fl as [| | ok err]; simpl.
      * rewrite Ht'.
        destruct (StateVerifyTempSet.IsEmpty (TempSet vb))
          as [[[empty [e |]] t] | msg]; simpl; [done | | done].
        unfold StateError; simpl. by rewrite He.
      * rewrite Ht'.
        destruct (StateVerifyTempSet.IsEmpty (TempSet vb))
          as [[[empty [e |]] t] | msg]; simpl; [done | | done].
        unfold StateError; simpl. by rewrite He.
      * unfold StateError. by rewrite Ht', He.
    + by injection Hl as <-.
Qed.

(** C1, as the code has it. When the stream is exhausted without a
    mismatch (the loop ends at [break]) and [IsEmpty] succeeds and reports
    that the set is not empty, [Verify] returns (false, nil). *)
Theorem Verify_leftover_returns_false v v' (t : T) :
  Verify_loop (StateReader v) v = Ret (Break, v') ->
  StateVerifyTempSet.IsEmpty (TempSet v') = Ret ((false, None), t) ->
  Verify v = Ret ((false, None), set_TempSet t v').
Proof.
  intros Hl He. unfold Verify. rewrite Hl. simpl. rewrite He. done.
Qed.

End Verifier.

(** ** The verifier on the in-memory set *)

Section VerifierMemory.
Context {xdr : XDR} {digest : Digest}.
Import StateVerifier.

Abbreviation MemSet := MemoryStateVerifyTempSet.MemoryStateVerifyTempSet.
Abbreviation mem g := (MemoryStateVerifyTempSet.mk (Some g)).

Implicit Types (v : StateVerifier MemSet) (g : gmap string bool).

Lemma Open_memory v :
  Open v = Ret (None, set_TempSet (mem ∅) v).
Proof. done. Qed.

Lemma Add_memory_absent (entry : LedgerEntry) (key : string) v g :
  TempSet v = mem g -> fingerprint entry = Some key -> g !! key = None ->
  Add entry v = Ret (None, set_TempSet (mem (<[key := true]> g)) v).
Proof.
  intros Hts Hk Hg. unfold Add. rewrite (entryToKey_Some _ _ _ Hk).
  rewrite Hts. simpl. unfold MemoryStateVerifyTempSet.Add; simpl.
  by rewrite Hg.
Qed.

Lemma Add_memory_present (entry : LedgerEntry) (key : string) v g :
  TempSet v = mem g -> fingerprint entry = Some key -> is_Some (g !! key) ->
  Add entry v = Ret (Some errKeyAlreadyExists, set_TempSet (mem g) v).
Proof.
  intros Hts Hk [b Hg]. unfold Add. rewrite (entryToKey_Some _ _ _ Hk).
  rewrite Hts. simpl. unfold MemoryStateVerifyTempSet.Add; simpl.
  by rewrite Hg.
Qed.

(** When every [Add] of the caller has succeeded, the local records have
    pairwise distinct keys, none of them held before, and the set holds
    them on top of what it held. *)
Lemma AddAll_memory (entries : list LedgerEntry) v v1 g :
  TempSet v = mem g ->
  AddAll entries v = Ret (None, v1) ->
  ∃ ks g1, local_keys entries = Some ks
           ∧ NoDup ks
           ∧ (∀ k, k ∈ ks -> g !! k = None)
           ∧ dom g1 = dom g ∪ list_to_set ks
           ∧ v1 = set_TempSet (mem g1) v.
Proof.
  revert v g. induction entries as [| entry entries IH]; intros v g Hts; simpl.
  - intros [= <-]. exists [], g. split; [done |]. split; [constructor |].
    split; [by intros k ?%elem_of_nil |]. split; [set_solver |].
    destruct v; simpl in *. by subst.
  - destruct (fingerprint entry) as [key |] eqn:Hk.
    + destruct (g !! key) as [b |] eqn:Hg.
      * rewrite (Add_memory_present _ _ _ _ Hts Hk) by eauto. done.
      * rewrite (Add_memory_absent _ _ _ _ Hts Hk Hg). simpl. intros Hrest.
        apply (IH _ (<[key := true]> g)) in Hrest; [| done].
        destruct Hrest as (ks & g1 & Hks & Hnd & Hfresh & Hdom & ->).
        exists (key :: ks), g1. unfold local_keys in *. simpl.
        rewrite Hks. simpl. split; [done |].
        assert (key ∉ ks) as Hnin.
        { intros Hin. apply Hfresh in Hin. by rewrite lookup_insert_eq in Hin. }
        split; [by constructor |]. split.
        { intros k [-> | Hin]%elem_of_cons; [done |].
          apply Hfresh in Hin.
          destruct (decide (key = k)) as [-> |];
            [by rewrite lookup_insert_eq in Hin
            | by rewrite lookup_insert_ne in Hin]. }
        split; [| done]. rewrite Hdom, dom_insert_L. set_solver.
    + unfold Add. destruct (entryToKey_None entry v Hk) as [e ->]. done.
Qed.

Lemma Verify_body_ignored (entryChange : LedgerEntryChange) v :
  normalized_key (TransformFunction v) entryChange = Some None ->
  Verify_body (inl entryChange) v = Ret (Continue, v).
Proof.
  unfold normalized_key. simpl.
  destruct (MustState entryChange) as [entry | msg]; simpl; [| done].
  destruct (match TransformFunction v with
            | Some f => f entry
            | None => Ret (false, entry)
            end) as [[ignore entry'] | msg]; simpl; [| done].
  destruct ignore; [done |]. by destruct (fingerprint entry').
Qed.

Lemma Verify_body_matched (entryChange : LedgerEntryChange) (key : string) v g :
  TempSet v = mem g ->
  normalized_key (TransformFunction v) entryChange = Some (Some key) ->
  is_Some (g !! key) ->
  Verify_body (inl entryChange) v
  = Ret (Continue, set_TempSet (mem (base.delete key g)) v).
Proof.
  intros Hts Hn [b Hg]. unfold normalized_key in Hn. simpl.
  destruct (MustState entryChange) as [entry | msg]; simpl; [| done].
  destruct (match TransformFunction v with
            | Some f => f entry
            | None => Ret (false, entry)
            end) as [[ignore entry'] | msg]; simpl; [| done].
  destruct ignore; [done |].
  destruct (fingerprint entry') as [k |] eqn:Hk; [| done].
  injection Hn as ->. rewrite (entryToKey_Some _ _ _ Hk).
  rewrite Hts. simpl. unfold MemoryStateVerifyTempSet.Remove; simpl.
  by rewrite Hg.
Qed.

Lemma Verify_body_unmatched (entryChange : LedgerEntryChange) (key : string) v g :
  TempSet v = mem g ->
  normalized_key (TransformFunction v) entryChange = Some (Some key) ->
  g !! key = None ->
  ∃ preTransform transformed,
    Verify_body (inl entryChange) v
    = Ret (Return false None,
           set_stateCorruptedError
             (Some (errNew (corruptedMessage preTransform transformed key)))
             (set_TempSet (mem g) v)).
Proof.
  intros Hts Hn Hg. unfold normalized_key in Hn. simpl.
  destruct (MustState entryChange) as [entry | msg]; simpl; [| done].
  destruct (match TransformFunction v with
            | Some f => f entry
            | None => Ret (false, entry)
            end) as [[ignore entry'] | msg]; simpl; [| done].
  destruct ignore; [done |].
  destruct (fingerprint entry') as [k |] eqn:Hk; [| done].
  injection Hn as ->. rewrite (entryToKey_Some _ _ _ Hk).
  rewrite Hts. simpl. unfold MemoryStateVerifyTempSet.Remove; simpl.
  rewrite Hg. simpl.
  destruct (MarshalBinary entry') as [b' e']; destruct (MarshalBinary entry) as [b e].
  by eexists _, _.
Qed.

(** Records whose keys are pairwise distinct and all held are taken off the
    set one by one, and the loop goes on behind them. *)
Lemma Verify_loop_matched (stream : list LedgerEntryChange) (ks : list string)
    (rest : SingleLedgerStateReader) v g :
  TempSet v = mem g ->
  stream_keys (TransformFunction v) stream = Some ks ->
  NoDup ks ->
  (∀ k, k ∈ ks -> k ∈ dom g) ->
  Verify_loop (map inl stream ++ rest) v
  = Verify_loop rest (set_TempSet (mem (delete_all ks g)) v).
Proof.
  revert ks v g.
  induction stream as [| entryChange stream IH]; intros ks v g Hts Hks Hnd Hin.
  - injection Hks as <-. simpl.
    apply (Verify_loop_set_StateReader_eq _ [] []).
    unfold set_StateReader, set_TempSet; simpl. by rewrite Hts.
  - simpl in Hks.
    destruct (normalized_key (TransformFunction v) entryChange)
      as [[key |] |] eqn:Hn; [| | done];
      destruct (stream_keys (TransformFunction v) stream) as [ks' |] eqn:Hks';
      try done; injection Hks as <-; cbn [map app]; rewrite Verify_loop_cons.
    + assert (is_Some (g !! key)) as Hg.
      { apply (elem_of_dom (D := gset string)), Hin. by left. }
      rewrite (Verify_body_matched _ key _ g); [| done | done | done]. simpl.
      inversion Hnd as [| ? ? Hnin Hnd']; subst.
      rewrite (IH ks' _ (base.delete key g)); [| done | done | done |].
      * by apply (Verify_loop_set_StateReader_eq _ [] []).
      * intros k Hk. rewrite dom_delete_L.
        assert (k ≠ key) by (by intros ->).
        assert (k ∈ dom g) by (apply Hin; by right). set_solver.
    + rewrite Verify_body_ignored by done. simpl.
      rewrite Verify_loop_set_StateReader. by apply IH.
Qed.


Lemma stream_keys_Permutation
    (f : option TransformLedgerEntryFunction)
    (stream stream' : list LedgerEntryChange) :
  stream ≡ₚ stream' ->
  ∀ ks, stream_keys f stream = Some ks ->
        ∃ ks', stream_keys f stream' = Some ks' ∧ ks ≡ₚ ks'.
Proof.
  induction 1 as [| x l l' Hp IH | x y l | l l' l'' Hp1 IH1 Hp2 IH2];
    intros ks Hks.
  - by exists ks.
  - simpl in *.
    destruct (normalized_key f x) as [[k |] |]; [| | done];
      destruct (stream_keys f l) as [ks0 |]; try done;
      injection Hks as <-;
      destruct (IH ks0 eq_refl) as (ks1 & -> & Hperm); eexists; split; try done.
    by constructor.
  - simpl in *.
    destruct (normalized_key f x) as [[kx |] |];
      destruct (normalized_key f y) as [[ky |] |];
      destruct (stream_keys f l) as [ks0 |]; try done;
      injection Hks as <-; eexists; (split; [done |]); try done.
    apply perm_swap.
  - destruct (IH1 ks Hks) as (ks1 & Hks1 & Hperm1).
    destruct (IH2 ks1 Hks1) as (ks2 & Hks2 & Hperm2).
    exists ks2. split; [done |]. by etrans.
Qed.

(** What [Open] and the caller's [Add]s leave: the set holds the keys of
    the local records, which are pairwise distinct; nothing else changed. *)
Lemma accumulated (entries : list LedgerEntry) (ksL : list string) v v0 v1 :
  Open v = Ret (None, v0) ->
  AddAll entries v0 = Ret (None, v1) ->
  local_keys entries = Some ksL ->
  ∃ g1, v1 = set_TempSet (mem g1) v ∧ dom g1 = list_to_set ksL ∧ NoDup ksL.
Proof.
  rewrite Open_memory. intros [= <-] Hadd HksL.
  apply (AddAll_memory _ _ _ ∅) in Hadd; [| done].
  destruct Hadd as (ks & g1 & Hks & Hnd & _ & Hdom & ->).
  rewrite HksL in Hks. injection Hks as <-.
  exists g1. split; [done |]. split; [| done].
  rewrite Hdom, dom_empty_L. set_solver.
Qed.

(** A stream whose keys are pairwise distinct and all held is read to its
    end, and the verdict is whether it took every key off the set. *)
Lemma Verify_stream_matched (stream : list LedgerEntryChange)
    (ks : list string) v g :
  TempSet v = mem g ->
  StateReader v = map inl stream ->
  stream_keys (TransformFunction v) stream = Some ks ->
  NoDup ks ->
  (∀ k, k ∈ ks -> k ∈ dom g) ->
  Verify v
  = Ret ((bool_decide (dom g ∖ list_to_set ks = ∅), None),
         set_StateReader [] (set_TempSet (mem (delete_all ks g)) v)).
Proof.
  intros Hts Hrd Hks Hnd Hin. unfold Verify.
  rewrite Hrd, <- (app_nil_r (map inl stream)).
  rewrite (Verify_loop_matched _ ks _ _ g) by done. simpl.
  destruct (decide (EOF = EOF)); [| done]. simpl.
  unfold MemoryStateVerifyTempSet.IsEmpty; simpl.
  pose proof (IsEmpty_open (delete_all ks g)) as He.
  unfold MemoryStateVerifyTempSet.IsEmpty in He; simpl in He.
  injection He as ->. by rewrite dom_delete_all.
Qed.

(** A local record that no authoritative record matches makes the verdict
    false; the diagnosis is left as it was. *)
Lemma Verify_unmatched_local_record (entries : list LedgerEntry)
    (stream : list LedgerEntryChange) (ks ksL : list string) (k0 : string)
    v v0 v1 :
  Open v = Ret (None, v0) ->
  AddAll entries v0 = Ret (None, v1) ->
  local_keys entries = Some ksL ->
  StateReader v = map inl stream ->
  stream_keys (TransformFunction v) stream = Some ks ->
  NoDup ks ->
  ks ⊆ ksL ->
  k0 ∈ ksL -> k0 ∉ ks ->
  ∃ v2, Verify v1 = Ret ((false, None), v2) ∧ StateError v2 = StateError v.
Proof.
  intros Hopen Hadd HksL Hrd Hks Hnd Hsub Hin0 Hnin0.
  destruct (accumulated _ _ _ _ _ Hopen Hadd HksL) as (g1 & -> & Hdom & _).
  rewrite (Verify_stream_matched stream ks _ g1); try done.
  - rewrite bool_decide_eq_false_2; [by eexists |].
    rewrite Hdom. set_solver.
  - intros k Hk. rewrite Hdom. apply elem_of_list_to_set. by apply Hsub.
Qed.

(** C3. The local records are added after [Open]; the stream delivers
    records that match local ones (pairwise distinct keys, all added) and
    then a record whose key was never added. [Verify] returns (false, nil);
    [StateError] is an error whose message contains the key of that record;
    and the reader stands right behind that record: nothing after it was
    read. *)
Theorem Verify_first_mismatch (entries : list LedgerEntry)
    (before : list LedgerEntryChange) (entryChange : LedgerEntryChange)
    (after : SingleLedgerStateReader) (ks ksL : list string) (key : string)
    v v0 v1 :
  Open v = Ret (None, v0) ->
  AddAll entries v0 = Ret (None, v1) ->
  local_keys entries = Some ksL ->
  StateReader v = map inl before ++ inl entryChange :: after ->
  stream_keys (TransformFunction v) before = Some ks ->
  NoDup ks ->
  ks ⊆ ksL ->
  normalized_key (TransformFunction v) entryChange = Some (Some key) ->
  key ∉ ksL ->
  ∃ v2 diagnosis,
    Verify v1 = Ret ((false, None), v2)
    ∧ StateError v2 = Some diagnosis
    ∧ Contains (Error diagnosis) key = true
    ∧ StateReader v2 = after.
Proof.
  intros Hopen Hadd HksL Hrd Hks Hnd Hsub Hkey Hnin.
  destruct (accumulated _ _ _ _ _ Hopen Hadd HksL) as (g1 & -> & Hdom & _).
  unfold Verify. simpl StateReader. rewrite Hrd.
  rewrite (Verify_loop_matched _ ks _ _ g1); [| done | done | done |].
  - rewrite Verify_loop_cons.
    destruct (Verify_body_unmatched entryChange key
                (set_StateReader after
                   (set_TempSet (mem (delete_all ks g1)) (set_TempSet (mem g1) v)))
                (delete_all ks g1)) as (a & b & ->); [done | done | |].
    + apply (not_elem_of_dom (D := gset string)).
      rewrite dom_delete_all, Hdom. set_solver.
    + simpl. eexists _, _. split; [done |]. split; [done |].
      split; [apply corruptedMessage_Contains_key | done].
  - intros k Hk. rewrite Hdom. apply elem_of_list_to_set. by apply Hsub.
Qed.

(** C4. The local records are added after [Open]; the stream, in whatever
    order it comes, yields after normalization, ignored records dropped,
    the keys of the local records, each once. [Verify] returns (true, nil),
    leaves the set empty and records no diagnosis. *)
Theorem Verify_order_independent (entries : list LedgerEntry)
    (stream stream' : list LedgerEntryChange) (ks ksL : list string)
    v v0 v1 :
  Open v = Ret (None, v0) ->
  AddAll entries v0 = Ret (None, v1) ->
  local_keys entries = Some ksL ->
  stream_keys (TransformFunction v) stream = Some ks ->
  ks ≡ₚ ksL ->
  stream' ≡ₚ stream ->
  StateReader v = map inl stream' ->
  ∃ v2, Verify v1 = Ret ((true, None), v2)
        ∧ held (TempSet v2) = ∅
        ∧ StateError v2 = StateError v.
Proof.
  intros Hopen Hadd HksL Hks Hperm Hperm' Hrd.
  destruct (accumulated _ _ _ _ _ Hopen Hadd HksL) as (g1 & -> & Hdom & HndL).
  symmetry in Hperm'.
  destruct (stream_keys_Permutation _ _ _ Hperm' ks Hks) as (ks' & Hks' & Hpk).
  assert (ks' ≡ₚ ksL) as HpL by (by etrans; [symmetry |]).
  rewrite (Verify_stream_matched stream' ks' _ g1); try done.
  - assert (dom g1 ∖ list_to_set ks' = (∅ : gset string)) as Hempty.
    { rewrite Hdom. apply set_eq. intros k.
      rewrite elem_of_difference, !elem_of_list_to_set, HpL. set_solver. }
    rewrite bool_decide_eq_true_2 by done.
    eexists. split; [done |]. split; [| done].
    unfold held; simpl. by rewrite dom_delete_all.
  - by rewrite HpL.
  - intros k Hk. rewrite Hdom. apply elem_of_list_to_set. by rewrite <- HpL.
Qed.

(** C5. On the in-memory set, right after [Open]: of two records with the
    same canonical encoding, [Add] accepts the first and rejects the second
    with [errKeyAlreadyExists], leaving the set as the first [Add] left it. *)
Theorem Add_duplicate_rejected (entry1 entry2 : LedgerEntry)
    (xdrEncoded : list Byte.byte) v :
  MarshalBinary entry1 = (xdrEncoded, None) ->
  MarshalBinary entry2 = (xdrEncoded, None) ->
  ∃ v0 v1,
    Open v = Ret (None, v0)
    ∧ Add entry1 v0 = Ret (None, v1)
    ∧ Add entry2 v1 = Ret (Some errKeyAlreadyExists, v1)
    ∧ held (TempSet v1) = {[EncodeToString (Sum256 xdrEncoded)]}.
Proof.
  intros Hm1 Hm2.
  set (key := EncodeToString (Sum256 xdrEncoded)).
  assert (fingerprint entry1 = Some key) as Hk1
    by (unfold fingerprint; by rewrite Hm1).
  assert (fingerprint entry2 = Some key) as Hk2
    by (unfold fingerprint; by rewrite Hm2).
  exists (set_TempSet (mem ∅) v),
         (set_TempSet (mem (<[key := true]> ∅)) v).
  split; [apply Open_memory |]. split.
  - by rewrite (Add_memory_absent entry1 key _ ∅).
  - split.
    + rewrite (Add_memory_present entry2 key _ (<[key := true]> ∅));
        [done | done | done |].
      rewrite lookup_insert_eq. eauto.
    + unfold held; simpl. rewrite dom_insert_L, dom_empty_L. set_solver.
Qed.

End VerifierMemory.

(** ** [transformEntry] *)

Section Transform.
Context {decls : expingest.XDRDecls}.
Import expingest.
Variable MasterKeyWeight : AccountEntry -> Byte.byte.
Variable SortSignersByKey : list Signer -> list Signer.

Lemma unknown_type_exists : ∃ ty : Z, ty ∉ known_types.
Proof.
  destruct (decide (0%Z ∈ known_types)) as [H0 |]; [| by eexists].
  destruct (decide (1%Z ∈ known_types)) as [H1 |]; [| by eexists].
  destruct (decide (2%Z ∈ known_types)) as [H2 |]; [| by eexists].
  destruct (decide (3%Z ∈ known_types)) as [H3 |]; [| by eexists].
  destruct (decide (4%Z ∈ known_types)) as [H4 |]; [| by eexists].
  exfalso. unfold known_types in *.
  rewrite !elem_of_cons, elem_of_nil in H0, H1, H2, H3, H4. lia.
Qed.

(** C10. [transformEntry] panics on every ledger entry whose type is none
    of Account, Trustline, Offer, Data (it neither ignores the entry nor
    returns), and there is such an entry. *)
Theorem transformEntry_panics_on_unknown_type :
  (∀ entry : LedgerEntry,
     Type_ (Data entry) ∉ known_types ->
     transformEntry MasterKeyWeight SortSignersByKey entry
     = Panic "Invalid type")
  ∧ (∃ entry : LedgerEntry,
       transformEntry MasterKeyWeight SortSignersByKey entry
       = Panic "Invalid type").
Proof.
  assert (∀ entry : LedgerEntry,
            Type_ (Data entry) ∉ known_types ->
            transformEntry MasterKeyWeight SortSignersByKey entry
            = Panic "Invalid type") as Hall.
  { intros entry Hty. unfold known_types in Hty.
    rewrite !not_elem_of_cons in Hty.
    destruct Hty as (Ha & Ht & Ho & Hd & _).
    unfold transformEntry.
    rewrite (proj2 (Z.eqb_neq _ _) Ha), (proj2 (Z.eqb_neq _ _) Ht),
      (proj2 (Z.eqb_neq _ _) Ho), (proj2 (Z.eqb_neq _ _) Hd). done. }
  split; [exact Hall |].
  destruct unknown_type_exists as [ty Hty].
  exists {| Data := {| Type_ := ty; Account := None;
                       LedgerEntryData_rest := LedgerEntryData_rest_zero |};
            LedgerEntry_rest := LedgerEntry_rest_zero |}.
  by apply Hall.
Qed.

End Transform.

(** ** The statements at work on the small instance *)

Section Scenarios.
#[local] Existing Instances Scenario.xdr Scenario.digest Scenario.decls.
Import StateVerifier.

Abbreviation MemSet := MemoryStateVerifyTempSet.MemoryStateVerifyTempSet.

(** Local records A, B, C; the stream delivers C, A, B. *)
Example run_reordered :
  Scenario.verdict
    (Verify (Scenario.added
               (Scenario.verifier
                  [inl (Some "C"); inl (Some "A"); inl (Some "B")] None)
               ["A"; "B"; "C"]))
  = Ret (true, None).
Proof. reflexivity. Qed.

(** Local records A, B; the stream delivers A, X. *)
Example run_extra_in_stream :
  (let v := Scenario.verified
              (Scenario.added
                 (Scenario.verifier [inl (Some "A"); inl (Some "X")] None)
                 ["A"; "B"]) in
   (StateError v, StateReader v))
  = (Some (errNew
       "Could not find entry X (transformed = X, key = X) in added entries"),
     []).
Proof. reflexivity. Qed.

(** Local records A, B, C; the stream delivers A, B. *)
Example run_leftover :
  Scenario.verdict
    (Verify (Scenario.added
               (Scenario.verifier [inl (Some "A"); inl (Some "B")] None)
               ["A"; "B"; "C"]))
  = Ret (false, None).
Proof. reflexivity. Qed.

(** The record D is ignored by the transform function. *)
Example run_ignored :
  Scenario.verdict
    (Verify (Scenario.added
               (Scenario.verifier
                  [inl (Some "A"); inl (Some "D"); inl (Some "B")]
                  (Some Scenario.normalize))
               ["A"; "B"]))
  = Ret (true, None).
Proof. reflexivity. Qed.

(** The source fails in the middle of the stream. *)
Example run_read_failure :
  (let res := Verify (Scenario.added
                        (Scenario.verifier
                           [inl (Some "A"); inr (errNew "unexpected EOF");
                            inl (Some "B")] None)
                        ["A"; "B"]) in
   (Scenario.verdict res, StateError (Scenario.verified
      (Scenario.added
         (Scenario.verifier
            [inl (Some "A"); inr (errNew "unexpected EOF"); inl (Some "B")]
            None)
         ["A"; "B"]))))
  = (Ret (true, Some (errNew "unexpected EOF")), None).
Proof. reflexivity. Qed.

(** Local record A; the stream delivers A twice: the second has nothing
    left to match. *)
Example run_delivered_twice :
  Scenario.verdict
    (Verify (Scenario.added
               (Scenario.verifier [inl (Some "A"); inl (Some "A")] None)
               ["A"]))
  = Ret (false, None).
Proof. reflexivity. Qed.

(** A change that carries no state entry. *)
Example run_not_a_state_change :
  Scenario.verdict (Verify (Scenario.added (Scenario.verifier [inl None] None) []))
  = Panic "arm State is not set".
Proof. reflexivity. Qed.

(** C1 with (true, err) for its result does not hold. One local record "A"
    is added; the stream is empty. The stream is exhausted without a mismatch,
    [IsEmpty] succeeds and reports a set that is not empty, and [Verify]
    returns (false, nil): it does not return (true, err), whatever err. *)
Lemma Verify_leftover_not_true_err :
  Verify_loop [] (Scenario.added (Scenario.verifier [] None) ["A"])
  = Ret (Break, Scenario.added (Scenario.verifier [] None) ["A"])
  ∧ MemoryStateVerifyTempSet.IsEmpty
      (TempSet (Scenario.added (Scenario.verifier [] None) ["A"]))
    = Ret ((false, None),
           TempSet (Scenario.added (Scenario.verifier [] None) ["A"]))
  ∧ Verify (Scenario.added (Scenario.verifier [] None) ["A"])
    = Ret ((false, None), Scenario.added (Scenario.verifier [] None) ["A"])
  ∧ ¬ (∃ (err : option error) (v2 : StateVerifier MemSet),
         Verify (Scenario.added (Scenario.verifier [] None) ["A"])
         = Ret ((true, err), v2)).
Proof.
  split; [by vm_compute |]. split; [by vm_compute |].
  assert (Verify (Scenario.added (Scenario.verifier [] None) ["A"])
          = Ret ((false, None), Scenario.added (Scenario.verifier [] None) ["A"]))
    as Hv by (by vm_compute).
  split; [exact Hv |]. intros (err & v2 & Hv2). rewrite Hv in Hv2. done.
Qed.

Lemma Verify_leftover_returns_false_witness :
  Verify (Scenario.added (Scenario.verifier [] None) ["A"])
  = Ret ((false, None),
         set_TempSet
           (TempSet (Scenario.added (Scenario.verifier [] None) ["A"]))
           (Scenario.added (Scenario.verifier [] None) ["A"])).
Proof.
  apply (Verify_leftover_returns_false (xdr := Scenario.xdr)
           (Scenario.added (Scenario.verifier [] None) ["A"])
           (Scenario.added (Scenario.verifier [] None) ["A"])).
  - vm_compute. reflexivity.
  - vm_compute. reflexivity.
Defined.

(** C2 fails where the set's [IsEmpty] fails. Nothing is added and nothing
    is read; [IsEmpty] answers with an error; [Verify] returns (true, err)
    and [StateError] is not nil afterwards: it says that added entries were
    not found. *)
Lemma Verify_IsEmpty_failure_records_diagnosis :
  ∃ v' : StateVerifier Scenario.FailingTempSet,
    Verify (tempset := Scenario.failing)
      (Scenario.added (tempset := Scenario.failing)
         (Scenario.failing_verifier []) [])
    = Ret ((true, Some (errNew "connection reset")), v')
    ∧ StateError v'
      = Some (errNew
          "Some entries added in Add has not been found in history archives").
Proof. eexists. split; by vm_compute. Qed.

Lemma Verify_first_mismatch_witness :
  ∃ (v2 : StateVerifier MemSet) (diagnosis : error),
    Verify (Scenario.added
              (Scenario.verifier
                 [inl (Some "A"); inl (Some "XY"); inl (Some "B")]
                 (Some Scenario.normalize))
              ["A"; "B"])
    = Ret ((false, None), v2)
    ∧ StateError v2 = Some diagnosis
    ∧ Contains (Error diagnosis) "YX" = true
    ∧ StateReader v2 = [inl (Some "B")].
Proof.
  eapply (Verify_first_mismatch (xdr := Scenario.xdr) (digest := Scenario.digest)
           ["A"; "B"] [Some "A"] (Some "XY")
            [inl (Some "B")] ["A"] ["A"; "B"] "YX"
            (Scenario.verifier
               [inl (Some "A"); inl (Some "XY"); inl (Some "B")]
               (Some Scenario.normalize))).
  - reflexivity.
  - vm_compute. reflexivity.
  - vm_compute. reflexivity.
  - reflexivity.
  - vm_compute. reflexivity.
  - compute_done.
  - compute_done.
  - vm_compute. reflexivity.
  - compute_done.
Defined.

Lemma Verify_order_independent_witness :
  ∃ v2 : StateVerifier MemSet,
    Verify (Scenario.added
              (Scenario.verifier
                 [inl (Some "C"); inl (Some "A#seen"); inl (Some "D"); inl (Some "B")]
                 (Some Scenario.normalize))
              ["A"; "B"; "C"])
    = Ret ((true, None), v2)
    ∧ held (TempSet v2) = ∅
    ∧ StateError v2 = None.
Proof.
  eapply (Verify_order_independent (xdr := Scenario.xdr) (digest := Scenario.digest)
           ["A"; "B"; "C"]
            [Some "A#seen"; Some "B"; Some "C"; Some "D"]
            [Some "C"; Some "A#seen"; Some "D"; Some "B"]
            ["A"; "B"; "C"] ["A"; "B"; "C"]
            (Scenario.verifier
               [inl (Some "C"); inl (Some "A#seen"); inl (Some "D"); inl (Some "B")]
               (Some Scenario.normalize))).
  - reflexivity.
  - vm_compute. reflexivity.
  - vm_compute. reflexivity.
  - vm_compute. reflexivity.
  - reflexivity.
  - compute_done.
  - reflexivity.
Defined.

Lemma Add_duplicate_rejected_witness :
  ∃ v0 v1 : StateVerifier MemSet,
    Open (Scenario.verifier [] None) = Ret (None, v0)
    ∧ Add "A" v0 = Ret (None, v1)
    ∧ Add "A" v1 = Ret (Some errKeyAlreadyExists, v1)
    ∧ held (TempSet v1) = {["A"]}.
Proof.
  apply (Add_duplicate_rejected (xdr := Scenario.xdr) (digest := Scenario.digest)
           "A" "A" (list_byte_of_string "A")
           (Scenario.verifier [] None)); reflexivity.
Defined.

Lemma ignored_record_skipped_witness :
  (∀ r, Verify_loop (inl (Some "D") :: r)
          (Scenario.verifier [] (Some Scenario.normalize))
        = Verify_loop r (Scenario.verifier [] (Some Scenario.normalize)))
  ∧ (∀ r1 r2,
       outcome (Verify (set_StateReader (r1 ++ inl (Some "D") :: r2)
                          (Scenario.verifier [] (Some Scenario.normalize))))
       = outcome (Verify (set_StateReader (r1 ++ r2)
                            (Scenario.verifier [] (Some Scenario.normalize)))))
  ∧ (∀ r1 r2 v2,
       Verify (set_StateReader (r1 ++ r2)
                 (Scenario.verifier [] (Some Scenario.normalize)))
       = Ret ((true, None), v2) ->
       ∃ v2', Verify (set_StateReader (r1 ++ inl (Some "D") :: r2)
                        (Scenario.verifier [] (Some Scenario.normalize)))
              = Ret ((true, None), v2')).
Proof.
  apply (ignored_record_skipped (xdr := Scenario.xdr) (digest := Scenario.digest)
           Scenario.normalize (Some "D") "D" ""
           (Scenario.verifier [] (Some Scenario.normalize))); reflexivity.
Defined.

Lemma entryToKey_deterministic_witness :
  (entryToKey "A" (Scenario.verifier [] None)).1
  = (entryToKey "A" (Scenario.added (Scenario.verifier [inl (Some "B")] None) ["B"])).1
  ∧ (entryToKey "A" (Scenario.verifier [] None)).1 = ("A", None)
  ∧ (entryToKey "A" (Scenario.verifier [] None)).2 = Scenario.verifier [] None
  ∧ (entryToKey "A" (Scenario.added (Scenario.verifier [inl (Some "B")] None) ["B"])).2
    = Scenario.added (Scenario.verifier [inl (Some "B")] None) ["B"].
Proof.
  apply (entryToKey_deterministic (xdr := Scenario.xdr) (digest := Scenario.digest)
           "A" "A" (list_byte_of_string "A")
           (Scenario.verifier [] None)
           (Scenario.added (Scenario.verifier [inl (Some "B")] None) ["B"]));
    reflexivity.
Defined.

Lemma Close_keeps_StateError_witness :
  ∃ v2 : StateVerifier MemSet,
    Close (Scenario.verified
             (Scenario.added (Scenario.verifier [inl (Some "X")] None) ["A"]))
    = Ret (None, v2)
    ∧ StateError v2
      = Some (errNew
          "Could not find entry X (transformed = X, key = X) in added entries")
    ∧ StateError v2
      = StateError
          (Scenario.verified
             (Scenario.added (Scenario.verifier [inl (Some "X")] None) ["A"])).
Proof.
  apply (Close_keeps_StateError
           (Scenario.added (Scenario.verifier [inl (Some "X")] None) ["A"])
           (Scenario.verified
              (Scenario.added (Scenario.verifier [inl (Some "X")] None) ["A"]))
           (errNew
              "Could not find entry X (transformed = X, key = X) in added entries")
           None {| MemoryStateVerifyTempSet.m := None |}).
  - vm_compute. reflexivity.
  - vm_compute. reflexivity.
  - reflexivity.
Defined.

Lemma transformEntry_panics_on_unknown_type_witness :
  expingest.transformEntry Scenario.MasterKeyWeight Scenario.SortSignersByKey
    Scenario.unknown_entry
  = Panic "Invalid type".
Proof.
  apply (proj1 (transformEntry_panics_on_unknown_type (decls := Scenario.decls)
                  Scenario.MasterKeyWeight Scenario.SortSignersByKey)).
  compute_done.
Defined.

End Scenarios.

(** * Further properties *)

(** ** memory_state_verify_temp_set.go *)

Section MemorySetLifecycle.
Import MemoryStateVerifyTempSet.

(** X1. On an open set, [Add key] fails with [errKeyAlreadyExists], leaving
    the set as it is, exactly when [key] is held; otherwise it succeeds and
    the set holds [key] on top of what it held, one key more. *)
Theorem Add_contract (key : string) (g : gmap string bool) :
  (Add key {| m := Some g |}
   = Ret (Some errKeyAlreadyExists, {| m := Some g |}) ↔ key ∈ dom g)
  ∧ (key ∉ dom g ->
       ∃ g', Add key {| m := Some g |} = Ret (None, {| m := Some g' |})
             ∧ dom g' = dom g ∪ {[key]}
             ∧ size g' = S (size g)).
Proof.
  destruct (g !! key) as [b |] eqn:Hk.
  - assert (key ∈ dom g) by (apply elem_of_dom; eauto).
    rewrite Add_present by eauto. split; [done |]. done.
  - assert (key ∉ dom g) by (by apply not_elem_of_dom).
    rewrite Add_absent by done. split; [split; [intros [=] | done] |].
    intros _. eexists. split; [done |]. split.
    + rewrite dom_insert_L. set_solver.
    + by apply map_size_insert_None.
Qed.

(** X2. [Add] and [Remove] undo each other. On an open set that does not
    hold [key], [Add key] then [Remove key] both succeed and give back the
    very set; on one that holds it, [Remove key] then [Add key] both succeed
    and the set holds the same keys as before. *)
Theorem Add_Remove_round_trip (key : string) (g : gmap string bool) :
  (key ∉ dom g ->
     ∃ s1, Add key {| m := Some g |} = Ret (None, s1)
           ∧ Remove key s1 = Ret (None, {| m := Some g |}))
  ∧ (key ∈ dom g ->
       ∃ s1 s2, Remove key {| m := Some g |} = Ret (None, s1)
                ∧ Add key s1 = Ret (None, s2)
                ∧ held s2 = dom g).
Proof.
  split.
  - intros Hk%not_elem_of_dom. rewrite Add_absent by done.
    eexists. split; [done |].
    rewrite Remove_present by (rewrite lookup_insert_eq; eauto).
    by rewrite delete_insert_eq, delete_id.
  - intros Hk. assert (is_Some (g !! key)) as Hs by (by apply elem_of_dom).
    rewrite Remove_present by done. eexists _, _. split; [done |].
    rewrite Add_absent by apply lookup_delete_eq. split; [done |].
    unfold held; simpl. rewrite dom_insert_L, dom_delete_L.
    apply set_eq. intros k. destruct (decide (k = key)) as [-> |]; set_solver.
Qed.

(** X3. A set that was closed, or never opened, has a nil map: [Add] panics
    on the assignment, [Remove] reports every key as not found, [IsEmpty]
    answers true, and none of the last two changes the set. *)
Theorem closed_set_behaviour (key : string) (s : MemoryStateVerifyTempSet) :
  Close s = Ret (None, {| m := None |})
  ∧ Add key {| m := None |} = Panic "assignment to entry in nil map"
  ∧ Remove key {| m := None |} = Ret (Some errKeyNotFound, {| m := None |})
  ∧ IsEmpty {| m := None |} = Ret ((true, None), {| m := None |})
  ∧ (∃ s', Open {| m := None |} = Ret (None, s')
           ∧ held s' = ∅
           ∧ Add key s' = Ret (None, {| m := Some {[key := true]} |})).
Proof.
  repeat split; try done.
  eexists. split; [done |]. split; [unfold held; simpl; apply dom_empty_L |].
  rewrite Add_absent by apply lookup_empty. by rewrite insert_empty.
Qed.

End MemorySetLifecycle.

(** ** main.go, over any implementation of the set *)

Section VerifierShape.
Context {xdr : XDR} {digest : Digest}
  {T : Type} {tempset : StateVerifyTempSet.StateVerifyTempSet T}.
Import StateVerifier.

Implicit Types (v : StateVerifier T) (r : SingleLedgerStateReader).

(** The cases of the loop body on a record, for the proofs below. *)
Ltac body_cases entryChange v :=
  let entry := fresh "entry" in
  let entry' := fresh "entry'" in
  let ignore := fresh "ignore" in
  destruct (MustState entryChange) as [entry | ?]; simpl; [| done];
  destruct (match TransformFunction v with
            | Some f => f entry
            | None => Ret (false, entry)
            end) as [[ignore entry'] | ?]; simpl; [| done];
  destruct ignore; [|
    unfold entryToKey;
    destruct (MarshalBinary entry') as [? [? |]]; simpl; [|
      destruct (StateVerifyTempSet.Remove _ (TempSet v)) as [[[? |] ?] | ?];
        simpl; [| | done]]].

Lemma Verify_body_Return_shape res v v' (ok : bool) (err : option error) :
  Verify_body res v = Ret (Return ok err, v') ->
  (ok = false ∧ err = None) ∨ (ok = true ∧ is_Some err).
Proof.
  destruct res as [entryChange | e]; simpl.
  - body_cases entryChange v; try done.
    + intros [= <- <- _]. right. eauto.
    + case_decide.
      * destruct (MarshalBinary entry'), (MarshalBinary entry).
        intros [= <- <- _]. by left.
      * intros [= <- <- _]. right. eauto.
  - case_decide; [done |]. intros [= <- <- _]. right. eauto.
Qed.

Lemma Verify_loop_Return_shape r v v' (ok : bool) (err : option error) :
  Verify_loop r v = Ret (Return ok err, v') ->
  (ok = false ∧ err = None) ∨ (ok = true ∧ is_Some err).
Proof.
  revert v. induction r as [| res r IH]; intros v; simpl.
  - by destruct (decide (EOF = EOF)).
  - destruct (Verify_body res (set_StateReader r v)) as [[fl v1] | msg] eqn:Hb;
      simpl; [| done].
    destruct fl as [| | ok' err']; [apply IH | done |].
    intros [= -> -> _]. by eapply Verify_body_Return_shape.
Qed.

(** X4. [Verify] never returns false together with an error: what it
    returns is (false, nil), (true, nil) or (true, err) with err not nil. *)
Theorem Verify_result_shape v v' (ok : bool) (err : option error) :
  Verify v = Ret ((ok, err), v') ->
  (ok, err) = (false, None) ∨ (ok, err) = (true, None)
  ∨ (ok = true ∧ is_Some err).
Proof.
  unfold Verify.
  destruct (Verify_loop (StateReader v) v) as [[fl v1] | msg] eqn:Hl;
    simpl; [| done].
  assert (∀ res : bool * option error * StateVerifier T,
            ('((empty, err0), t) ← StateVerifyTempSet.IsEmpty (TempSet v1);
             match err0 with
             | Some e =>
                 Ret ((true, Some e),
                      set_stateCorruptedError
                        (Some (errNew
                           "Some entries added in Add has not been found in history archives"))
                        (set_TempSet t v1))
             | None => Ret ((empty, None), set_TempSet t v1)
             end) = Ret res ->
            res.1 = (false, None) ∨ res.1 = (true, None)
            ∨ (res.1.1 = true ∧ is_Some res.1.2)) as Hempty.
  { intros res.
    destruct (StateVerifyTempSet.IsEmpty (TempSet v1))
      as [[[empty [e |]] t] | msg]; simpl; [| | done].
    - intros [= <-]. simpl. right. right. eauto.
    - intros [= <-]. simpl. destruct empty; eauto. }
  destruct fl as [| | ok' err'].
  - intros Hr. by apply Hempty in Hr.
  - intros Hr. by apply Hempty in Hr.
  - intros [= -> -> _].
    apply Verify_loop_Return_shape in Hl as [[-> ->] | [-> ?]]; eauto.
Qed.

Lemma Verify_body_frame res v v' (fl : flow) :
  Verify_body res v = Ret (fl, v') ->
  StateReader v' = StateReader v ∧ TransformFunction v' = TransformFunction v.
Proof.
  destruct res as [entryChange | e]; simpl.
  - body_cases entryChange v; try (by intros [= _ <-]).
    case_decide; [| by intros [= _ <-]].
    destruct (MarshalBinary entry'), (MarshalBinary entry). by intros [= _ <-].
  - case_decide; by intros [= _ <-].
Qed.

Lemma Verify_loop_frame r v v' (fl : flow) :
  Verify_loop r v = Ret (fl, v') ->
  (∃ consumed, r = consumed ++ StateReader v')
  ∧ TransformFunction v' = TransformFunction v.
Proof.
  revert v. induction r as [| res r IH]; intros v; simpl.
  - destruct (decide (EOF = EOF)); [| done]. intros [= _ <-].
    split; [by exists [] | done].
  - destruct (Verify_body res (set_StateReader r v)) as [[fl1 v1] | msg] eqn:Hb;
      simpl; [| done].
    apply Verify_body_frame in Hb as [Hr Ht]. simpl in Hr, Ht.
    destruct fl1 as [| | ok err].
    + intros Hl. apply IH in Hl as [[consumed ->] Ht'].
      split; [by exists (res :: consumed) | congruence].
    + intros [= _ <-]. split; [exists [res]; by rewrite Hr | done].
    + intros [= _ <-]. split; [exists [res]; by rewrite Hr | done].
Qed.

(** X5. [Verify] only moves the reader forward and never replaces the
    transform function: what is left to read afterwards is the end of what
    was there to read before. *)
Theorem Verify_consumes_a_prefix v v' (res : bool * option error) :
  Verify v = Ret (res, v') ->
  (∃ consumed, StateReader v = consumed ++ StateReader v')
  ∧ TransformFunction v' = TransformFunction v.
Proof.
  unfold Verify.
  destruct (Verify_loop (StateReader v) v) as [[fl v1] | msg] eqn:Hl;
    simpl; [| done].
  apply Verify_loop_frame in Hl as [Hc Ht].
  destruct fl as [| | ok err]; try (by intros [= _ <-]);
    destruct (StateVerifyTempSet.IsEmpty (TempSet v1))
      as [[[empty [e |]] t] | msg]; simpl; try done; by intros [= _ <-].
Qed.

Lemma with_TransformFunction_id v (f : option TransformLedgerEntryFunction) :
  TransformFunction v = f -> with_TransformFunction f v = v.
Proof. intros <-. by destruct v. Qed.

Lemma Verify_body_keep_all res v :
  Verify_body res (with_TransformFunction (Some keep_all) v)
  = '(fl, v') ← Verify_body res (with_TransformFunction None v);
    Ret (fl, with_TransformFunction (Some keep_all) v').
Proof.
  destruct res as [entryChange | e]; simpl.
  - destruct (MustState entryChange) as [entry | msg]; simpl; [| done].
    unfold entryToKey.
    destruct (MarshalBinary entry) as [b [e |]]; simpl; [done |].
    destruct (StateVerifyTempSet.Remove _ (TempSet v)) as [[[e |] t] | msg];
      simpl; [| done | done].
    by case_decide.
  - by case_decide.
Qed.

Lemma Verify_loop_keep_all r v :
  Verify_loop r (with_TransformFunction (Some keep_all) v)
  = '(fl, v') ← Verify_loop r (with_TransformFunction None v);
    Ret (fl, with_TransformFunction (Some keep_all) v').
Proof.
  revert v. induction r as [| res r IH]; intros v.
  - simpl. by destruct (decide (EOF = EOF)).
  - rewrite !Verify_loop_cons.
    change (set_StateReader r (with_TransformFunction (Some keep_all) v))
      with (with_TransformFunction (Some keep_all) (set_StateReader r v)).
    change (set_StateReader r (with_TransformFunction None v))
      with (with_TransformFunction None (set_StateReader r v)).
    rewrite Verify_body_keep_all.
    destruct (Verify_body res (with_TransformFunction None (set_StateReader r v)))
      as [[fl v1] | msg] eqn:Hb; simpl; [| done].
    destruct fl as [| | ok err]; [| done | done].
    apply Verify_body_frame in Hb as [_ Ht]. simpl in Ht.
    rewrite <- (with_TransformFunction_id v1 None Ht) at 2. apply IH.
Qed.

(** X6. A verifier without a transform function compares the records as
    they come: [Verify] returns the same, and leaves the same set and the
    same diagnosis, as with the transform function that keeps every record
    unchanged. *)
Theorem Verify_nil_TransformFunction v :
  outcome (Verify (with_TransformFunction None v))
  = outcome (Verify (with_TransformFunction (Some keep_all) v)).
Proof.
  unfold Verify. simpl StateReader. rewrite Verify_loop_keep_all.
  destruct (Verify_loop (StateReader v) (with_TransformFunction None v))
    as [[fl v1] | msg]; simpl; [| done].
  destruct fl as [| | ok err]; simpl; try done;
    destruct (StateVerifyTempSet.IsEmpty (TempSet v1))
      as [[[empty [e |]] t] | msg]; simpl; done.
Qed.


(** The body calls the set at most once, and then it is [Remove]. *)
Lemma Verify_body_TempSet res v v' (fl : flow) :
  Verify_body res v = Ret (fl, v') ->
  TempSet v' = TempSet v
  ∨ ∃ key err, StateVerifyTempSet.Remove key (TempSet v) = Ret (err, TempSet v').
Proof.
  destruct res as [entryChange | e]; simpl.
  - destruct (MustState entryChange) as [entry | ?]; simpl; [| done].
    destruct (match TransformFunction v with
              | Some f => f entry
              | None => Ret (false, entry)
              end) as [[ignore entry'] | ?]; simpl; [| done].
    destruct ignore; [intros [= _ <-]; by left |].
    unfold entryToKey.
    destruct (MarshalBinary entry') as [b [e |]]; simpl;
      [intros [= _ <-]; by left |].
    destruct (StateVerifyTempSet.Remove _ (TempSet v)) as [[err t] | ?] eqn:Hr;
      simpl; [| done].
    intros Hv. right. eexists _, err.
    replace (TempSet v') with t; [done |].
    destruct err as [e |]; [| by injection Hv as _ <-].
    case_decide; [| by injection Hv as _ <-].
    destruct (MarshalBinary entry). by injection Hv as _ <-.
  - case_decide; intros [= _ <-]; by left.
Qed.

(** A record that cannot be processed ends the run: by a panic, or by the
    error of its encoding. *)
Lemma Verify_body_unprocessable (entryChange : LedgerEntryChange) v :
  normalized_key (TransformFunction v) entryChange = None ->
  (∃ msg, Verify_body (inl entryChange) v = Panic msg)
  ∨ (∃ e, Verify_body (inl entryChange) v = Ret (Return true (Some e), v)).
Proof.
  unfold normalized_key. simpl.
  destruct (MustState entryChange) as [entry | ?]; simpl; [| eauto].
  destruct (match TransformFunction v with
            | Some f => f entry
            | None => Ret (false, entry)
            end) as [[ignore entry'] | ?]; simpl; [| eauto].
  destruct ignore; [done |].
  destruct (fingerprint entry') as [k |] eqn:Hk; [done |]. intros _.
  destruct (entryToKey_None entry' v Hk) as [e ->]. eauto.
Qed.

End VerifierShape.

(** ** main.go on the in-memory set *)

Section VerifierMemoryMore.
Context {xdr : XDR} {digest : Digest}.
Import StateVerifier.

Abbreviation MemSet := MemoryStateVerifyTempSet.MemoryStateVerifyTempSet.
Abbreviation mem g := (MemoryStateVerifyTempSet.mk (Some g)).

Implicit Types (v : StateVerifier MemSet) (g : gmap string bool).

(** When the loop ends at [break], it has read records that it could all
    process, with pairwise distinct keys that were all held, up to the end
    of the stream or to an [EOF]. *)
Lemma Verify_loop_Break_memory (r : SingleLedgerStateReader) v v' g :
  TempSet v = mem g ->
  Verify_loop r v = Ret (Break, v') ->
  ∃ stream rest ks,
    r = map inl stream ++ rest
    ∧ (rest = [] ∨ ∃ rest', rest = inr EOF :: rest')
    ∧ stream_keys (TransformFunction v) stream = Some ks
    ∧ NoDup ks
    ∧ (∀ k, k ∈ ks -> k ∈ dom g)
    ∧ TempSet v' = mem (delete_all ks g).
Proof.
  revert v g. induction r as [| res r IH]; intros v g Hts.
  - simpl. destruct (decide (EOF = EOF)); [| done]. intros [= <-].
    exists [], [], []. simpl. repeat split; eauto using NoDup_nil_2.
    by intros k ?%elem_of_nil.
  - rewrite Verify_loop_cons. destruct res as [entryChange | e].
    + destruct (normalized_key (TransformFunction v) entryChange)
        as [[key |] |] eqn:Hn.
      * destruct (g !! key) as [b |] eqn:Hg.
        -- rewrite (Verify_body_matched _ key _ g) by eauto. simpl.
           intros Hl. apply (IH _ (base.delete key g)) in Hl; [| done].
           destruct Hl as (stream & rest & ks & -> & Hrest & Hks & Hnd & Hin & Hts').
           simpl in Hks.
           exists (entryChange :: stream), rest, (key :: ks). simpl.
           rewrite Hn, Hks. repeat split; try done.
           ++ constructor; [| done]. intros Hk%Hin.
              rewrite dom_delete_L in Hk. set_solver.
           ++ intros k [-> | Hk%Hin]%elem_of_cons.
              ** apply elem_of_dom. eauto.
              ** rewrite dom_delete_L in Hk. set_solver.
        -- destruct (Verify_body_unmatched entryChange key
                       (set_StateReader r v) g) as (a & b & ->); done.
      * rewrite Verify_body_ignored by done. simpl.
        rewrite Verify_loop_set_StateReader.
        intros Hl. apply (IH _ g) in Hl; [| done].
        destruct Hl as (stream & rest & ks & -> & Hrest & Hks & Hnd & Hin & Hts').
        exists (entryChange :: stream), rest, ks. simpl.
        rewrite Hn, Hks. by repeat split.
      * destruct (Verify_body_unprocessable entryChange (set_StateReader r v))
          as [[msg ->] | [e ->]]; done.
    + simpl. destruct (decide (e = EOF)) as [-> |]; [| done]. simpl.
      intros [= <-]. exists [], (inr EOF :: r), []. simpl.
      repeat split; eauto using NoDup_nil_2. by intros k ?%elem_of_nil.
Qed.

Lemma Verify_true_memory (ksL : list string) v v2 g :
  TempSet v = mem g ->
  dom g = list_to_set ksL ->
  NoDup ksL ->
  Verify v = Ret ((true, None), v2) ->
  ∃ stream rest ks,
    StateReader v = map inl stream ++ rest
    ∧ (rest = [] ∨ ∃ rest', rest = inr EOF :: rest')
    ∧ stream_keys (TransformFunction v) stream = Some ks
    ∧ ks ≡ₚ ksL.
Proof.
  intros Hts Hdom HndL. unfold Verify.
  destruct (Verify_loop (StateReader v) v) as [[fl v'] | msg] eqn:Hl;
    simpl; [| done].
  destruct fl as [| | ok err].
  - by apply Verify_loop_not_Continue in Hl.
  - apply (Verify_loop_Break_memory _ _ _ g) in Hl; [| done].
    destruct Hl as (stream & rest & ks & Hr & Hrest & Hks & Hnd & Hin & Hts').
    rewrite Hts'. simpl.
    pose proof (IsEmpty_open (delete_all ks g)) as He.
    unfold MemoryStateVerifyTempSet.IsEmpty in He |- *; simpl in He |- *.
    injection He as ->. intros [= Hempty%bool_decide_eq_true _].
    rewrite dom_delete_all, Hdom in Hempty.
    exists stream, rest, ks. repeat split; try done.
    apply NoDup_Permutation; [done | done |]. intros k. split.
    + intros Hk%Hin. rewrite Hdom in Hk. by apply elem_of_list_to_set in Hk.
    + intros Hk. destruct (decide (k ∈ ks)) as [| Hnk]; [done |].
      assert (k ∈ (list_to_set ksL ∖ list_to_set ks : gset string)) as Hd
        by (rewrite elem_of_difference, !elem_of_list_to_set; done).
      rewrite Hempty in Hd. set_solver.
  - intros [= -> -> _].
    apply Verify_loop_Return_shape in Hl as [[? ?] | [_ [? ?]]]; done.
Qed.

(** X7. On the in-memory set, [Verify] returns (true, nil) only for a
    matching stream: what it read, up to the end of the stream or to an
    [EOF], are records it could process, and their keys, ignored records
    dropped, are the keys of the local records, each once. *)
Theorem Verify_true_only_if_matching (entries : list LedgerEntry)
    (ksL : list string) v v0 v1 v2 :
  Open v = Ret (None, v0) ->
  AddAll entries v0 = Ret (None, v1) ->
  local_keys entries = Some ksL ->
  Verify v1 = Ret ((true, None), v2) ->
  ∃ stream rest ks,
    StateReader v = map inl stream ++ rest
    ∧ (rest = [] ∨ ∃ rest', rest = inr EOF :: rest')
    ∧ stream_keys (TransformFunction v) stream = Some ks
    ∧ ks ≡ₚ ksL.
Proof.
  intros Hopen Hadd HksL Hv.
  destruct (accumulated _ _ _ _ _ Hopen Hadd HksL) as (g1 & -> & Hdom & HndL).
  destruct (Verify_true_memory ksL (set_TempSet (mem g1) v) v2 g1
              eq_refl Hdom HndL Hv)
    as (stream & rest & ks & Hrd & Hrest & Hks & Hperm).
  exists stream, rest, ks. simpl in Hrd, Hks. by repeat split.
Qed.

(** X8. Local records that the stream never delivers. The stream is read to
    its end without a mismatch, [Verify] returns (false, nil), and the set
    is left holding exactly the keys of the local records that no
    authoritative record matched. *)
Theorem Verify_leftover_keys (entries : list LedgerEntry)
    (stream : list LedgerEntryChange) (ks ksL : list string) (k0 : string)
    v v0 v1 :
  Open v = Ret (None, v0) ->
  AddAll entries v0 = Ret (None, v1) ->
  local_keys entries = Some ksL ->
  StateReader v = map inl stream ->
  stream_keys (TransformFunction v) stream = Some ks ->
  NoDup ks ->
  ks ⊆ ksL ->
  k0 ∈ ksL -> k0 ∉ ks ->
  ∃ v2, Verify v1 = Ret ((false, None), v2)
        ∧ StateReader v2 = []
        ∧ held (TempSet v2) = list_to_set ksL ∖ list_to_set ks
        ∧ k0 ∈ held (TempSet v2).
Proof.
  intros Hopen Hadd HksL Hrd Hks Hnd Hsub Hin0 Hnin0.
  destruct (accumulated _ _ _ _ _ Hopen Hadd HksL) as (g1 & -> & Hdom & _).
  rewrite (Verify_stream_matched stream ks _ g1); try done.
  - rewrite bool_decide_eq_false_2 by (rewrite Hdom; set_solver).
    eexists. split; [done |]. split; [done |].
    unfold held; simpl. rewrite dom_delete_all, Hdom.
    split; [done | set_solver].
  - intros k Hk. rewrite Hdom. apply elem_of_list_to_set. by apply Hsub.
Qed.

(** What the loop does behind a matched prefix, whatever comes next. *)
Lemma Verify_after_matched (entries : list LedgerEntry)
    (before : list LedgerEntryChange) (rest : SingleLedgerStateReader)
    (ks ksL : list string) v v0 v1 :
  Open v = Ret (None, v0) ->
  AddAll entries v0 = Ret (None, v1) ->
  local_keys entries = Some ksL ->
  StateReader v = map inl before ++ rest ->
  stream_keys (TransformFunction v) before = Some ks ->
  NoDup ks ->
  ks ⊆ ksL ->
  ∃ g, dom g = list_to_set ksL ∖ list_to_set ks
       ∧ Verify_loop (StateReader v1) v1
         = Verify_loop rest (set_TempSet (mem g) v).
Proof.
  intros Hopen Hadd HksL Hrd Hks Hnd Hsub.
  destruct (accumulated _ _ _ _ _ Hopen Hadd HksL) as (g1 & -> & Hdom & _).
  exists (delete_all ks g1). split; [by rewrite dom_delete_all, Hdom |].
  simpl StateReader. rewrite Hrd.
  rewrite (Verify_loop_matched _ ks _ _ g1); try done.
  intros k Hk. rewrite Hdom. apply elem_of_list_to_set. by apply Hsub.
Qed.

(** X9. A record delivered twice. Behind records that match local ones, a
    record whose key one of them had already taken off the set is a
    mismatch although its key was added: [Verify] returns (false, nil),
    [StateError] names the key, and nothing behind the record is read. *)
Theorem Verify_second_delivery (entries : list LedgerEntry)
    (before : list LedgerEntryChange) (entryChange : LedgerEntryChange)
    (after : SingleLedgerStateReader) (ks ksL : list string) (key : string)
    v v0 v1 :
  Open v = Ret (None, v0) ->
  AddAll entries v0 = Ret (None, v1) ->
  local_keys entries = Some ksL ->
  StateReader v = map inl before ++ inl entryChange :: after ->
  stream_keys (TransformFunction v) before = Some ks ->
  NoDup ks ->
  ks ⊆ ksL ->
  normalized_key (TransformFunction v) entryChange = Some (Some key) ->
  key ∈ ks ->
  ∃ v2 diagnosis,
    Verify v1 = Ret ((false, None), v2)
    ∧ key ∈ ksL
    ∧ StateError v2 = Some diagnosis
    ∧ Contains (Error diagnosis) key = true
    ∧ StateReader v2 = after.
Proof.
  intros Hopen Hadd HksL Hrd Hks Hnd Hsub Hkey Hin.
  destruct (Verify_after_matched _ _ _ _ _ _ _ _ Hopen Hadd HksL Hrd Hks Hnd Hsub)
    as (g & Hdom & Hl).
  unfold Verify. rewrite Hl, Verify_loop_cons.
  destruct (Verify_body_unmatched entryChange key
              (set_StateReader after (set_TempSet (mem g) v)) g)
    as (a & b & ->); [done | done | |].
  - apply (not_elem_of_dom (D := gset string)). rewrite Hdom. set_solver.
  - simpl. eexists _, _. split; [done |]. split; [by apply Hsub |].
    split; [done |]. split; [apply corruptedMessage_Contains_key | done].
Qed.

(** X10. A failed read. Behind records that match local ones the source
    fails with an error that is not [EOF]: [Verify] returns (true, err) with
    that error, leaves the diagnosis as it was, reads nothing further, and
    the set still holds the keys not matched so far. *)
Theorem Verify_read_failure (entries : list LedgerEntry)
    (before : list LedgerEntryChange) (err : error)
    (after : SingleLedgerStateReader) (ks ksL : list string)
    v v0 v1 :
  Open v = Ret (None, v0) ->
  AddAll entries v0 = Ret (None, v1) ->
  local_keys entries = Some ksL ->
  StateReader v = map inl before ++ inr err :: after ->
  stream_keys (TransformFunction v) before = Some ks ->
  NoDup ks ->
  ks ⊆ ksL ->
  err ≠ EOF ->
  ∃ v2,
    Verify v1 = Ret ((true, Some err), v2)
    ∧ StateError v2 = StateError v
    ∧ StateReader v2 = after
    ∧ held (TempSet v2) = list_to_set ksL ∖ list_to_set ks.
Proof.
  intros Hopen Hadd HksL Hrd Hks Hnd Hsub Herr.
  destruct (Verify_after_matched _ _ _ _ _ _ _ _ Hopen Hadd HksL Hrd Hks Hnd Hsub)
    as (g & Hdom & Hl).
  unfold Verify. rewrite Hl, Verify_loop_cons. simpl.
  destruct (decide (err = EOF)); [done |]. simpl.
  eexists. split; [done |]. by repeat split.
Qed.

(** X11. A record without encoding. Behind records that match local ones
    comes a record that the transform function keeps and whose normalized
    form cannot be encoded: [Verify] returns (true, err) with the error of
    the encoding, leaves the diagnosis as it was, does not call the set for
    this record, and reads nothing further. *)
Theorem Verify_encoding_failure (entries : list LedgerEntry)
    (before : list LedgerEntryChange) (entryChange : LedgerEntryChange)
    (entry entry' : LedgerEntry) (xdrEncoded : list Byte.byte) (err : error)
    (after : SingleLedgerStateReader) (ks ksL : list string)
    v v0 v1 :
  Open v = Ret (None, v0) ->
  AddAll entries v0 = Ret (None, v1) ->
  local_keys entries = Some ksL ->
  StateReader v = map inl before ++ inl entryChange :: after ->
  stream_keys (TransformFunction v) before = Some ks ->
  NoDup ks ->
  ks ⊆ ksL ->
  MustState entryChange = Ret entry ->
  match TransformFunction v with
  | Some f => f entry
  | None => Ret (false, entry)
  end = Ret (false, entry') ->
  MarshalBinary entry' = (xdrEncoded, Some err) ->
  ∃ v2,
    Verify v1 = Ret ((true, Some err), v2)
    ∧ StateError v2 = StateError v
    ∧ StateReader v2 = after
    ∧ held (TempSet v2) = list_to_set ksL ∖ list_to_set ks.
Proof.
  intros Hopen Hadd HksL Hrd Hks Hnd Hsub Hstate Hf Hm.
  destruct (Verify_after_matched _ _ _ _ _ _ _ _ Hopen Hadd HksL Hrd Hks Hnd Hsub)
    as (g & Hdom & Hl).
  unfold Verify. rewrite Hl, Verify_loop_cons. simpl.
  rewrite Hstate. simpl. rewrite Hf. simpl.
  unfold entryToKey. rewrite Hm. simpl.
  eexists. split; [done |]. by repeat split.
Qed.

Lemma Remove_held (key : string) (s s' : MemSet) (err : option error) :
  MemoryStateVerifyTempSet.Remove key s = Ret (err, s') ->
  held s' ⊆ held s.
Proof.
  destruct s as [[g |]]; unfold MemoryStateVerifyTempSet.Remove; simpl.
  - destruct (g !! key); simpl; intros [= _ <-]; unfold held; simpl;
      [rewrite dom_delete_L; set_solver | done].
  - by intros [= _ <-].
Qed.

Lemma Verify_loop_held (r : SingleLedgerStateReader) v v' (fl : flow) :
  Verify_loop r v = Ret (fl, v') ->
  held (TempSet v') ⊆ held (TempSet v).
Proof.
  revert v. induction r as [| res r IH]; intros v.
  - simpl. destruct (decide (EOF = EOF)); [| done]. by intros [= _ <-].
  - rewrite Verify_loop_cons.
    destruct (Verify_body res (set_StateReader r v)) as [[fl1 v1] | msg] eqn:Hb;
      simpl; [| done].
    assert (held (TempSet v1) ⊆ held (TempSet v)) as Hstep.
    { apply Verify_body_TempSet in Hb as [-> | (key & err & Hr)]; [done |].
      by apply Remove_held in Hr. }
    destruct fl1 as [| | ok err].
    + intros Hl%IH. set_solver.
    + by intros [= _ <-].
    + by intros [= _ <-].
Qed.

(** X12. [Verify] never adds to the set: whatever the stream and whatever
    it returns, the in-memory set afterwards holds no key that it did not
    hold before. *)
Theorem Verify_never_adds v v' (res : bool * option error) :
  Verify v = Ret (res, v') ->
  held (TempSet v') ∖ held (TempSet v) = ∅.
Proof.
  unfold Verify.
  destruct (Verify_loop (StateReader v) v) as [[fl v1] | msg] eqn:Hl;
    simpl; [| done].
  apply Verify_loop_held in Hl.
  destruct fl as [| | ok err]; intros [= _ <-]; simpl; set_solver.
Qed.

End VerifierMemoryMore.

(** ** verify.go: [transformEntry] *)

Section TransformMore.
Context {decls : expingest.XDRDecls}.
Import expingest.
Variable MasterKeyWeight : AccountEntry -> Byte.byte.
Variable SortSignersByKey : list Signer -> list Signer.

Lemma transformEntry_Account (entry : LedgerEntry) :
  Type_ (Data entry) = LedgerEntryTypeAccount ->
  transformEntry MasterKeyWeight SortSignersByKey entry
  = match Account (Data entry) with
    | None => Panic "invalid memory address or nil pointer dereference"
    | Some accountEntry =>
        if Byte.eqb (MasterKeyWeight accountEntry) Byte.x00
           && Nat.eqb (length (Signers accountEntry)) 0
        then Ret (true, LedgerEntry_zero)
        else
          Ret (false,
               {| Data :=
                    {| Type_ := LedgerEntryTypeAccount;
                       Account := Some
                         {| AccountId := AccountId accountEntry;
                            Thresholds :=
                              (Thresholds_0 (Thresholds accountEntry),
                               Byte.x00, Byte.x00, Byte.x00);
                            Signers := SortSignersByKey (Signers accountEntry);
                            AccountEntry_rest := AccountEntry_rest_zero |};
                       LedgerEntryData_rest := LedgerEntryData_rest_zero |};
                  LedgerEntry_rest := LedgerEntry_rest_zero |})
    end.
Proof. intros Hty. unfold transformEntry. by rewrite Hty, Z.eqb_refl. Qed.

Lemma transformEntry_not_Account (entry : LedgerEntry) :
  Type_ (Data entry) ≠ LedgerEntryTypeAccount ->
  transformEntry MasterKeyWeight SortSignersByKey entry
  = if bool_decide (Type_ (Data entry) ∈ known_types)
    then Ret (true, LedgerEntry_zero) else Panic "Invalid type".
Proof.
  intros Hty. unfold transformEntry, known_types.
  rewrite (proj2 (Z.eqb_neq _ _) Hty).
  destruct (Z.eqb_spec (Type_ (Data entry)) LedgerEntryTypeTrustline) as [-> |];
    [rewrite bool_decide_eq_true_2; [done | set_solver] |].
  destruct (Z.eqb_spec (Type_ (Data entry)) LedgerEntryTypeOffer) as [-> |];
    [rewrite bool_decide_eq_true_2; [done | set_solver] |].
  destruct (Z.eqb_spec (Type_ (Data entry)) LedgerEntryTypeData) as [-> |];
    [rewrite bool_decide_eq_true_2; [done | set_solver] |].
  rewrite bool_decide_eq_false_2; [done |].
  rewrite !elem_of_cons, elem_of_nil. tauto.
Qed.


(** X14. An entry of a known type that is not Account (a trustline, an
    offer, a data entry) is ignored, whatever it holds, and what comes back
    with it is the zero entry. *)
Theorem transformEntry_ignores_other_kinds (entry : LedgerEntry) :
  Type_ (Data entry) ∈ known_types ->
  Type_ (Data entry) ≠ LedgerEntryTypeAccount ->
  transformEntry MasterKeyWeight SortSignersByKey entry
  = Ret (true, LedgerEntry_zero).
Proof.
  intros Hin Hty. rewrite transformEntry_not_Account by done.
  by rewrite bool_decide_eq_true_2.
Qed.

(** X15. Of an account entry [transformEntry] reads the account id, the
    master weight and the signers, and nothing else: two account entries
    that agree on these three get the same answer, whatever their other
    fields. *)
Theorem transformEntry_reads_three_fields (entry1 entry2 : LedgerEntry)
    (account1 account2 : AccountEntry) :
  Type_ (Data entry1) = LedgerEntryTypeAccount ->
  Type_ (Data entry2) = LedgerEntryTypeAccount ->
  Account (Data entry1) = Some account1 ->
  Account (Data entry2) = Some account2 ->
  AccountId account1 = AccountId account2 ->
  MasterKeyWeight account1 = MasterKeyWeight account2 ->
  Thresholds_0 (Thresholds account1) = Thresholds_0 (Thresholds account2) ->
  Signers account1 = Signers account2 ->
  transformEntry MasterKeyWeight SortSignersByKey entry1
  = transformEntry MasterKeyWeight SortSignersByKey entry2.
Proof.
  intros Ht1 Ht2 Ha1 Ha2 Hid Hw Ht0 Hs.
  rewrite !transformEntry_Account by done.
  by rewrite Ha1, Ha2, Hid, Hw, Ht0, Hs.
Qed.

(** X16. What [transformEntry] keeps it keeps for good: when the master
    weight is the first threshold, and sorting the sorted signers changes
    neither them nor their number, the transform of a kept entry is that
    entry again. *)
Theorem transformEntry_kept_is_fixed (entry entry' : LedgerEntry)
    (account : AccountEntry) :
  (∀ a, MasterKeyWeight a = Thresholds_0 (Thresholds a)) ->
  Account (Data entry) = Some account ->
  SortSignersByKey (SortSignersByKey (Signers account))
  = SortSignersByKey (Signers account) ->
  length (SortSignersByKey (Signers account)) = length (Signers account) ->
  transformEntry MasterKeyWeight SortSignersByKey entry = Ret (false, entry') ->
  transformEntry MasterKeyWeight SortSignersByKey entry' = Ret (false, entry').
Proof.
  intros Hmw Ha Hsort Hlen Hkept.
  destruct (decide (Type_ (Data entry) = LedgerEntryTypeAccount)) as [Hty | Hty].
  - rewrite transformEntry_Account, Ha in Hkept by done.
    destruct (Byte.eqb (MasterKeyWeight account) Byte.x00
              && Nat.eqb (length (Signers account)) 0) eqn:Hc; [done |].
    injection Hkept as <-. rewrite transformEntry_Account by done. simpl.
    rewrite Hmw; simpl. rewrite Hlen, Hsort, <- Hmw, Hc. done.
  - rewrite transformEntry_not_Account in Hkept by done.
    by case_bool_decide.
Qed.

End TransformMore.

(** ** The caller's loop over [Add] *)

Section AddAllLaws.
Context {xdr : XDR} {digest : Digest}
  {T : Type} {tempset : StateVerifyTempSet.StateVerifyTempSet T}.
Import StateVerifier.

Lemma AddAll_app (l1 l2 : list LedgerEntry) (v : StateVerifier T) :
  AddAll (l1 ++ l2) v
  = '(err, v1) ← AddAll l1 v;
    match err with
    | Some e => Ret (Some e, v1)
    | None => AddAll l2 v1
    end.
Proof.
  revert v. induction l1 as [| entry l1 IH]; intros v; simpl; [done |].
  destruct (Add entry v) as [[[e |] v1] | msg]; simpl; [done | | done].
  apply IH.
Qed.

Lemma AddAll_one (entry : LedgerEntry) (v : StateVerifier T) :
  AddAll [entry] v = Add entry v.
Proof. simpl. by destruct (Add entry v) as [[[e |] v1] | msg]. Qed.

End AddAllLaws.

(** ** verify.go: [addAccountsToStateVerifier] *)

Section AddAccounts.
Context {decls : expingest.XDRDecls} {funcs : accounts.XDRFuncs} {digest : Digest}
  {T : Type} {tempset : StateVerifyTempSet.StateVerifyTempSet T}.
#[local] Existing Instance accounts.ledger_xdr.
Import accounts.

Variable address : string -> expingest.AccountId_t.
Variable signerKey : string -> SignerKey_t.

Implicit Types (v : StateVerifier.StateVerifier T)
  (row : history.AccountSigner) (rows run : list history.AccountSigner)
  (a : expingest.AccountEntry).

Lemma group_from_nonempty run (account : string) rows :
  group_from run account rows ≠ [].
Proof.
  revert run account. induction rows as [| row rows IH]; intros run account;
    simpl; [done |].
  destruct (String.eqb account (history.Account row)); [apply IH | done].
Qed.

Lemma absorb_AccountId a row :
  expingest.AccountId (absorb signerKey a row) = expingest.AccountId a.
Proof. unfold absorb. by destruct (String.eqb _ _). Qed.

Lemma foldl_absorb_AccountId run a :
  expingest.AccountId (foldl (absorb signerKey) a run) = expingest.AccountId a.
Proof.
  revert a. induction run as [| row run IH]; intros a; simpl; [done |].
  by rewrite IH, absorb_AccountId.
Qed.

Lemma account_of_rows_snoc run row a :
  account_of_rows address signerKey run = Some a ->
  account_of_rows address signerKey (run ++ [row])
  = Some (absorb signerKey a row).
Proof.
  destruct run as [| row0 run]; [done |]. simpl. intros [= <-].
  by rewrite foldl_app.
Qed.

(** One pass of the loop on a row of the account under way. *)
Lemma addAccounts_body_same row a v :
  Address (expingest.AccountId a) = Ret (history.Account row) ->
  (String.eqb (history.Account row) (history.Signer row) = false ->
   MustSigner (history.Signer row) = Ret (signerKey (history.Signer row))) ->
  addAccounts_body (inl row) (Some a) v
  = Ret (inl (Some (absorb signerKey a row)), v).
Proof.
  intros Haddr Hkey. unfold addAccounts_body, absorb. rewrite Haddr. simpl.
  rewrite String.eqb_refl. simpl.
  destruct (String.eqb (history.Account row) (history.Signer row)); [done |].
  by rewrite Hkey.
Qed.

(** One pass of the loop on the first row of another account. *)
Lemma addAccounts_body_other row a (account : string) v :
  Address (expingest.AccountId a) = Ret account ->
  String.eqb account (history.Account row) = false ->
  MustAddress (history.Account row) = Ret (address (history.Account row)) ->
  (String.eqb (history.Account row) (history.Signer row) = false ->
   MustSigner (history.Signer row) = Ret (signerKey (history.Signer row))) ->
  addAccounts_body (inl row) (Some a) v
  = '(err, v1) ← StateVerifier.Add (xdr := ledger_xdr)
                   (accountLedgerEntry (Some (sorted a))) v;
    match err with
    | Some e => Ret (inr e, v1)
    | None =>
        Ret (inl (Some (absorb signerKey
                          (newAccountEntry (address (history.Account row))) row)),
             v1)
    end.
Proof.
  intros Haddr Hne Hid Hkey. unfold addAccounts_body, absorb, sorted.
  rewrite Haddr. simpl. rewrite Hne. simpl.
  destruct (StateVerifier.Add _ v) as [[[e |] v1] | msg]; simpl; try done.
  rewrite Hid. simpl.
  destruct (String.eqb (history.Account row) (history.Signer row)); [done |].
  by rewrite Hkey.
Qed.

Lemma addAccounts_body_first row v :
  MustAddress (history.Account row) = Ret (address (history.Account row)) ->
  (String.eqb (history.Account row) (history.Signer row) = false ->
   MustSigner (history.Signer row) = Ret (signerKey (history.Signer row))) ->
  addAccounts_body (inl row) None v
  = Ret (inl (Some (absorb signerKey
                      (newAccountEntry (address (history.Account row))) row)),
         v).
Proof.
  intros Hid Hkey. unfold addAccounts_body, absorb. simpl.
  rewrite Hid. simpl.
  destruct (String.eqb (history.Account row) (history.Signer row)); [done |].
  by rewrite Hkey.
Qed.

Lemma closed_entries_cons run (runs : list (list history.AccountSigner)) :
  runs ≠ [] ->
  closed_entries address signerKey (run :: runs)
  = accountLedgerEntry (sorted <$> account_of_rows address signerKey run)
    :: closed_entries address signerKey runs.
Proof. intros Hne. unfold closed_entries. by destruct runs. Qed.

Lemma last_cons_nonempty run (runs : list (list history.AccountSigner)) :
  runs ≠ [] -> List.last (run :: runs) [] = List.last runs [].
Proof. intros Hne. by destruct runs. Qed.

(** The loop with an account under way: the runs that end are added, each
    sorted, and the loop goes on behind the rows with the last run under
    way. *)
Lemma addAccounts_loop_from rows (rest : list (history.AccountSigner + error))
    run (account : string) a v :
  convertible address signerKey rows ->
  Address (expingest.AccountId a) = Ret account ->
  account_of_rows address signerKey run = Some a ->
  addAccounts_loop (map inl rows ++ rest) (Some a) v
  = '(err, v1) ← StateVerifier.AddAll (xdr := ledger_xdr)
                   (closed_entries address signerKey
                      (group_from run account rows)) v;
    match err with
    | Some e => Ret (inr e, v1)
    | None =>
        addAccounts_loop rest
          (account_of_rows address signerKey
             (List.last (group_from run account rows) [])) v1
    end.
Proof.
  revert run account a v.
  induction rows as [| row rows IH]; intros run account a v Hconv Haddr Hrun.
  - simpl. by rewrite Hrun.
  - apply Forall_cons in Hconv as [(Hid & Hback & Hkey) Hconv].
    cbn [map app addAccounts_loop group_from].
    destruct (String.eqb account (history.Account row)) eqn:Heq.
    + apply String.eqb_eq in Heq. subst account.
      rewrite addAccounts_body_same by done. simpl.
      apply IH; [done | by rewrite absorb_AccountId |].
      by apply account_of_rows_snoc.
    + rewrite (addAccounts_body_other row a account) by done.
      rewrite closed_entries_cons, last_cons_nonempty
        by apply group_from_nonempty.
      rewrite Hrun. cbn [fmap option_fmap option_map StateVerifier.AddAll].
      destruct (StateVerifier.Add _ v) as [[[e |] v1] | msg]; simpl; try done.
      apply IH; [done | | done].
      rewrite absorb_AccountId. simpl. done.
Qed.

(** The loop from its start. *)
Lemma addAccounts_loop_rows rows (rest : list (history.AccountSigner + error)) v :
  convertible address signerKey rows ->
  addAccounts_loop (map inl rows ++ rest) None v
  = '(err, v1) ← StateVerifier.AddAll (xdr := ledger_xdr)
                   (closed_entries address signerKey (group_rows rows)) v;
    match err with
    | Some e => Ret (inr e, v1)
    | None =>
        addAccounts_loop rest
          (account_of_rows address signerKey
             (List.last (group_rows rows) [])) v1
    end.
Proof.
  destruct rows as [| row rows]; intros Hconv; [done |].
  pose proof Hconv as Hconv0.
  apply Forall_cons in Hconv0 as [(Hid & Hback & Hkey) Hconv'].
  cbn [map app addAccounts_loop group_rows].
  rewrite addAccounts_body_first by done. simpl.
  apply addAccounts_loop_from; [done | | done].
  rewrite absorb_AccountId. simpl. done.
Qed.


Lemma addAccounts_rows_AddAll rows v :
  convertible address signerKey rows ->
  addAccountsToStateVerifier v
    {| history.StreamAccounts :=
         inl {| history.pending := map inl rows; history.Err := None |} |}
  = StateVerifier.AddAll (xdr := ledger_xdr)
      (closed_entries address signerKey (group_rows rows)
       ++ [last_entry address signerKey (group_rows rows)]) v.
Proof.
  intros Hconv. unfold addAccountsToStateVerifier. cbn [history.StreamAccounts
    history.pending history.Err].
  replace (map inl rows) with (map inl rows ++ @nil (history.AccountSigner + error))
    by apply app_nil_r.
  rewrite addAccounts_loop_rows by done.
  etrans; [| symmetry; apply (AddAll_app (xdr := ledger_xdr))].
  destruct (StateVerifier.AddAll _ v) as [[[e |] v1] | msg];
    cbn -[StateVerifier.AddAll]; try done.
  symmetry. apply (AddAll_one (xdr := ledger_xdr)).
Qed.

(** X17. Reading rows that all scan, [addAccountsToStateVerifier] is the
    caller's loop over [Add] on one entry per run of rows of one account, in
    the order of the rows: it stops at the first [Add] that fails and
    returns that error as it is. The entry of every run but the last has its
    signers sorted; the entry of the last run is added as the rows built
    it. With no row at all the one entry added has a nil account. *)
Theorem addAccounts_one_entry_per_account rows v :
  convertible address signerKey rows ->
  addAccountsToStateVerifier v
    {| history.StreamAccounts :=
         inl {| history.pending := map inl rows; history.Err := None |} |}
  = StateVerifier.AddAll (xdr := ledger_xdr)
      (closed_entries address signerKey (group_rows rows)
       ++ [last_entry address signerKey (group_rows rows)]) v.
Proof.
  intros Hconv. unfold addAccountsToStateVerifier.
  cbn [history.StreamAccounts history.pending history.Err].
  replace (map inl rows) with (map inl rows ++ @nil (history.AccountSigner + error))
    by apply app_nil_r.
  rewrite addAccounts_loop_rows by done.
  etrans; [| symmetry; apply (AddAll_app (xdr := ledger_xdr))].
  destruct (StateVerifier.AddAll _ v) as [[[e |] v1] | msg];
    cbn -[StateVerifier.AddAll]; try done.
  symmetry. apply (AddAll_one (xdr := ledger_xdr)).
Qed.

(** X18. When [Scan] fails on a row, the accounts whose runs ended before
    that row have been added, sorted; the account under way is not added;
    no row behind is scanned; and the error returned is the error of the
    first [Add] that failed if one did, the wrapped error of [Scan]
    otherwise. *)
Theorem addAccounts_Scan_error rows (err : error)
    (rest : list (history.AccountSigner + error)) (rowsErr : option error) v :
  convertible address signerKey rows ->
  addAccountsToStateVerifier v
    {| history.StreamAccounts :=
         inl {| history.pending := map inl rows ++ inr err :: rest;
                history.Err := rowsErr |} |}
  = '(e, v1) ← StateVerifier.AddAll (xdr := ledger_xdr)
                 (closed_entries address signerKey (group_rows rows)) v;
    Ret (Some (default (Wrap err "rows.Scan returned error") e), v1).
Proof.
  intros Hconv. unfold addAccountsToStateVerifier. cbn [history.StreamAccounts
    history.pending history.Err].
  rewrite addAccounts_loop_rows by done.
  by destruct (StateVerifier.AddAll _ v) as [[[e |] v1] | msg].
Qed.

(** X19. When the rows end with an error ([Err] is not nil), the accounts
    whose runs ended have been added, sorted, the last account is not
    added, and the error returned is the error of the first [Add] that
    failed if one did, the wrapped error of the rows otherwise. *)
Theorem addAccounts_rows_Err rows (err : error) v :
  convertible address signerKey rows ->
  addAccountsToStateVerifier v
    {| history.StreamAccounts :=
         inl {| history.pending := map inl rows; history.Err := Some err |} |}
  = '(e, v1) ← StateVerifier.AddAll (xdr := ledger_xdr)
                 (closed_entries address signerKey (group_rows rows)) v;
    Ret (Some (default (Wrap err "rows.Err returned error") e), v1).
Proof.
  intros Hconv. unfold addAccountsToStateVerifier. cbn [history.StreamAccounts
    history.pending history.Err].
  replace (map inl rows) with (map inl rows ++ @nil (history.AccountSigner + error))
    by apply app_nil_r.
  rewrite addAccounts_loop_rows by done.
  by destruct (StateVerifier.AddAll _ v) as [[[e |] v1] | msg].
Qed.

Lemma group_from_one_account run (account : string) rows :
  Forall (fun row => history.Account row = account) rows ->
  group_from run account rows = [run ++ rows].
Proof.
  revert run. induction rows as [| row rows IH]; intros run Hall; simpl.
  - by rewrite app_nil_r.
  - apply Forall_cons in Hall as [<- Hall]. rewrite String.eqb_refl.
    rewrite IH by done. by rewrite <- app_assoc.
Qed.

Lemma absorb_Signers a row :
  expingest.Signers (absorb signerKey a row)
  = expingest.Signers a ++ signers_of_rows signerKey [row].
Proof.
  unfold absorb, signers_of_rows. rewrite filter_cons, filter_nil.
  destruct (String.eqb_spec (history.Account row) (history.Signer row));
    case_decide; try done; simpl; by rewrite ?app_nil_r.
Qed.

Lemma foldl_absorb_Signers run a :
  expingest.Signers (foldl (absorb signerKey) a run)
  = expingest.Signers a ++ signers_of_rows signerKey run.
Proof.
  revert a. induction run as [| row run IH]; intros a; simpl.
  - by rewrite app_nil_r.
  - rewrite IH, absorb_Signers. rewrite <- app_assoc. f_equal.
    unfold signers_of_rows. rewrite <- map_app. f_equal.
    change (row :: run) with ([row] ++ run). by rewrite filter_app.
Qed.

(** X20. When all rows belong to one account, that account is the last
    one: it is added by one [Add], and its signers are those of the rows in
    the order of the rows; they are not sorted. *)
Theorem addAccounts_last_account_unsorted row rows v :
  convertible address signerKey (row :: rows) ->
  Forall (fun row' => history.Account row' = history.Account row) rows ->
  ∃ account,
    addAccountsToStateVerifier v
      {| history.StreamAccounts :=
           inl {| history.pending := map inl (row :: rows);
                  history.Err := None |} |}
    = StateVerifier.Add (xdr := ledger_xdr) (accountLedgerEntry (Some account)) v
    ∧ expingest.AccountId account = address (history.Account row)
    ∧ expingest.Signers account = signers_of_rows signerKey (row :: rows).
Proof.
  intros Hconv Hall.
  rewrite addAccounts_rows_AddAll by done.
  cbn [group_rows]. rewrite group_from_one_account by done.
  unfold closed_entries, last_entry.
  cbn [removelast map app List.last account_of_rows].
  eexists. split; [apply (AddAll_one (xdr := ledger_xdr)) |]. split.
  - by rewrite foldl_absorb_AccountId.
  - by rewrite foldl_absorb_Signers.
Qed.

Lemma absorb_normal a row :
  expingest.AccountEntry_rest a = expingest.AccountEntry_rest_zero ->
  (∃ w, expingest.Thresholds a = (w, Byte.x00, Byte.x00, Byte.x00)) ->
  expingest.AccountEntry_rest (absorb signerKey a row)
  = expingest.AccountEntry_rest_zero
  ∧ ∃ w, expingest.Thresholds (absorb signerKey a row)
         = (w, Byte.x00, Byte.x00, Byte.x00).
Proof.
  intros Hrest [w Hw]. unfold absorb.
  destruct (String.eqb _ _); simpl; eauto.
Qed.

Lemma account_of_rows_normal run a :
  account_of_rows address signerKey run = Some a ->
  expingest.AccountEntry_rest a = expingest.AccountEntry_rest_zero
  ∧ ∃ w, expingest.Thresholds a = (w, Byte.x00, Byte.x00, Byte.x00).
Proof.
  assert (∀ l a0,
            expingest.AccountEntry_rest a0 = expingest.AccountEntry_rest_zero
            ∧ (∃ w, expingest.Thresholds a0 = (w, Byte.x00, Byte.x00, Byte.x00)) ->
            expingest.AccountEntry_rest (foldl (absorb signerKey) a0 l)
            = expingest.AccountEntry_rest_zero
            ∧ ∃ w, expingest.Thresholds (foldl (absorb signerKey) a0 l)
                   = (w, Byte.x00, Byte.x00, Byte.x00)) as Hfold.
  { induction l as [| row l IH]; intros a0 [Hrest Hw]; simpl; [done |].
    apply IH. by apply absorb_normal. }
  destruct run as [| row0 run]; cbn [account_of_rows]; [done |]. intros [= <-].
  apply (Hfold (row0 :: run)). split; [done | by eexists].
Qed.

(** X21. The entry added for an account whose run has ended is in the form
    [transformEntry] gives to the entries of the stream: when the master
    weight is the first threshold and the sorted signers are left as they
    are by sorting again, [transformEntry] keeps that entry and returns it
    unchanged, unless the account has master weight zero and no signer. *)
Theorem closed_entry_is_normal run a :
  (∀ a', MasterKeyWeight a' = expingest.Thresholds_0 (expingest.Thresholds a')) ->
  account_of_rows address signerKey run = Some a ->
  SortSignersByKey (SortSignersByKey (expingest.Signers a))
  = SortSignersByKey (expingest.Signers a) ->
  length (SortSignersByKey (expingest.Signers a)) = length (expingest.Signers a) ->
  expingest.Thresholds_0 (expingest.Thresholds a) ≠ Byte.x00
  ∨ expingest.Signers a ≠ [] ->
  expingest.transformEntry MasterKeyWeight SortSignersByKey
    (accountLedgerEntry (Some (sorted a)))
  = Ret (false, accountLedgerEntry (Some (sorted a))).
Proof.
  intros Hmw Hrun Hsort Hlen Hnonempty.
  apply account_of_rows_normal in Hrun as [Hrest [w Hw]].
  rewrite transformEntry_Account by done.
  cbn [expingest.Account expingest.Data accountLedgerEntry]. rewrite Hmw.
  unfold sorted, set_Signers.
  cbn [expingest.Thresholds expingest.Signers expingest.AccountId].
  rewrite Hlen, Hsort.
  assert (Byte.eqb (expingest.Thresholds_0 (expingest.Thresholds a)) Byte.x00
          && Nat.eqb (length (expingest.Signers a)) 0 = false) as ->.
  { apply andb_false_iff. destruct Hnonempty as [Hw0 | Hs].
    - left. destruct (Byte.eqb _ _) eqn:Heq; [| done].
      by apply Byte.byte_dec_bl in Heq.
    - right. by destruct (expingest.Signers a). }
  unfold accountLedgerEntry. rewrite Hw, Hrest. done.
Qed.

End AddAccounts.

(** ** Verdicts of the in-memory verifier, from what the set holds *)

Section VerdictsMemory.
Context {xdr : XDR} {digest : Digest}.
Import StateVerifier.

Abbreviation MemSet := MemoryStateVerifyTempSet.MemoryStateVerifyTempSet.
Abbreviation mem g := (MemoryStateVerifyTempSet.mk (Some g)).

Implicit Types (v : StateVerifier MemSet) (g : gmap string bool).

(** Records with an encoding each and pairwise distinct keys, none of them
    held, are all added. *)
Lemma AddAll_memory_succeeds (entries : list LedgerEntry) (ks : list string) v g :
  TempSet v = mem g ->
  local_keys entries = Some ks ->
  NoDup ks ->
  (∀ k, k ∈ ks -> g !! k = None) ->
  ∃ g1, AddAll entries v = Ret (None, set_TempSet (mem g1) v)
        ∧ dom g1 = dom g ∪ list_to_set ks.
Proof.
  revert ks v g. induction entries as [| entry entries IH];
    intros ks v g Hts Hks Hnd Hfresh.
  - injection Hks as <-. exists g. split; [| set_solver].
    simpl. destruct v; simpl in *. by subst.
  - unfold local_keys in Hks. simpl in Hks.
    destruct (fingerprint entry) as [key |] eqn:Hk; [| done]. simpl in Hks.
    destruct (mapM fingerprint entries) as [ks' |] eqn:Hks'; [| done].
    injection Hks as <-. apply NoDup_cons in Hnd as [Hnin Hnd].
    simpl. rewrite (Add_memory_absent _ key _ g) by (try done; apply Hfresh; by left).
    simpl.
    destruct (IH ks' (set_TempSet (mem (<[key := true]> g)) v) (<[key := true]> g))
      as (g1 & -> & Hdom); try done.
    { intros k Hin. rewrite lookup_insert_ne by (by intros ->).
      apply Hfresh. by right. }
    exists g1. split; [done |]. rewrite Hdom, dom_insert_L. set_solver.
Qed.

(** Behind records that match held keys, a record whose key is not held any
    more, or never was, ends the run with (false, nil). *)
Lemma Verify_mismatch_memory (before : list LedgerEntryChange)
    (entryChange : LedgerEntryChange) (after : SingleLedgerStateReader)
    (ks : list string) (key : string) v g :
  TempSet v = mem g ->
  StateReader v = map inl before ++ inl entryChange :: after ->
  stream_keys (TransformFunction v) before = Some ks ->
  NoDup ks ->
  (∀ k, k ∈ ks -> k ∈ dom g) ->
  normalized_key (TransformFunction v) entryChange = Some (Some key) ->
  key ∉ dom g ∖ list_to_set ks ->
  ∃ v2, Verify v = Ret ((false, None), v2).
Proof.
  intros Hts Hrd Hks Hnd Hin Hkey Hnin. unfold Verify. rewrite Hrd.
  rewrite (Verify_loop_matched _ ks _ _ g) by done.
  rewrite Verify_loop_cons.
  destruct (Verify_body_unmatched entryChange key
              (set_StateReader after (set_TempSet (mem (delete_all ks g)) v))
              (delete_all ks g)) as (a & b & ->); [done | done | |].
  - apply (not_elem_of_dom (D := gset string)). by rewrite dom_delete_all.
  - simpl. by eexists.
Qed.

End VerdictsMemory.

(** ** verify.go: [verifyState] *)

Section VerifyState.
Context {decls : expingest.XDRDecls} {funcs : accounts.XDRFuncs} {digest : Digest}.
#[local] Existing Instance accounts.ledger_xdr.
Import system.

Variable address : string -> expingest.AccountId_t.
Variable signerKey : string -> accounts.SignerKey_t.

Abbreviation transform :=
  (expingest.transformEntry accounts.MasterKeyWeight accounts.SortSignersByKey).

(** In a world that is ready, with rows that convert, what [verifyState]
    does is decided by the caller's loop over [Add] and by [Verify]. *)
Lemma verifyState_ready (w : World) (ledgerSequence : Z)
    (stateReader : StateVerifier.SingleLedgerStateReader (xdr := accounts.ledger_xdr))
    (rows : list history.AccountSigner) :
  ready w ledgerSequence stateReader rows ->
  accounts.convertible address signerKey rows ->
  verifyState {| stateVerificationRunning := false |} w
  = ({| stateVerificationRunning := false |},
     '(err, verifier) ←
       StateVerifier.AddAll (xdr := accounts.ledger_xdr)
         (local_entries address signerKey rows)
         (StateVerifier.set_TempSet
            {| MemoryStateVerifyTempSet.m := Some ∅ |}
            (newStateVerifier stateReader));
     match err with
     | Some e => Ret (Some (accounts.Wrap e "addAccountsToStateVerifier failed"))
     | None =>
         '((ok, err), verifier) ← StateVerifier.Verify verifier;
         match err with
         | Some e => Ret (Some (accounts.Wrap e "Error running verifier.Verify"))
         | None => if negb ok then Panic "true" else Ret None
         end
     end).
Proof.
  intros (Htx & Hseq & Hcp & Hrd & Hq) Hconv.
  unfold verifyState, verifyState_run. cbn [stateVerificationRunning].
  rewrite Htx, Hseq, Hcp, Hrd, Hq. cbn [negb].
  rewrite (Open_memory (xdr := accounts.ledger_xdr) (newStateVerifier stateReader)).
  cbn [mbind Result_bind].
  by rewrite (addAccounts_rows_AddAll address signerKey).
Qed.


Abbreviation mem g := (MemoryStateVerifyTempSet.mk (Some g)).

(** What the set holds when every [Add] of the rows' entries succeeds. *)
Lemma verifyState_added (stateReader : StateVerifier.SingleLedgerStateReader
                           (xdr := accounts.ledger_xdr))
    (rows : list history.AccountSigner) (ksL : list string) :
  local_keys (xdr := accounts.ledger_xdr) (local_entries address signerKey rows)
  = Some ksL ->
  NoDup ksL ->
  ∃ g1,
    StateVerifier.AddAll (xdr := accounts.ledger_xdr)
      (local_entries address signerKey rows)
      (StateVerifier.set_TempSet (mem ∅) (newStateVerifier stateReader))
    = Ret (None, StateVerifier.set_TempSet (mem g1) (newStateVerifier stateReader))
    ∧ dom g1 = list_to_set ksL.
Proof.
  intros HksL Hnd.
  destruct (AddAll_memory_succeeds (xdr := accounts.ledger_xdr)
              (local_entries address signerKey rows) ksL
              (StateVerifier.set_TempSet (mem ∅) (newStateVerifier stateReader)) ∅)
    as (g1 & Hadd & Hdom); try done.
  exists g1. split; [exact Hadd |]. rewrite Hdom, dom_empty_L. set_solver.
Qed.

(** X22. When [verifyState] returns nil for a checkpoint ledger, the state
    is the archive's: the reader delivered, up to its end, entries that
    [transformEntry] could all process, and the keys of those it kept are
    the keys of the entries built from the rows, each once. *)
Theorem verifyState_nil_only_if_matching (w : World) (ledgerSequence : Z)
    (stateReader : StateVerifier.SingleLedgerStateReader (xdr := accounts.ledger_xdr))
    (rows : list history.AccountSigner) :
  ready w ledgerSequence stateReader rows ->
  accounts.convertible address signerKey rows ->
  verifyState {| stateVerificationRunning := false |} w
  = ({| stateVerificationRunning := false |}, Ret None) ->
  ∃ stream rest ks ksL,
    stateReader = map inl stream ++ rest
    ∧ (rest = [] ∨ ∃ rest', rest = inr EOF :: rest')
    ∧ stream_keys (xdr := accounts.ledger_xdr) (Some transform) stream = Some ks
    ∧ local_keys (xdr := accounts.ledger_xdr)
        (local_entries address signerKey rows) = Some ksL
    ∧ ks ≡ₚ ksL.
Proof.
  intros Hready Hconv. rewrite (verifyState_ready _ _ _ _ Hready Hconv).
  intros [= Hrun].
  destruct (StateVerifier.AddAll _ _) as [[[e |] v1] | msg] eqn:Hadd;
    simpl in Hrun; [done | | done].
  destruct (StateVerifier.Verify v1) as [[[ok [e |]] v2] | msg] eqn:Hv;
    simpl in Hrun; [done | | done].
  destruct ok; [| done].
  apply (AddAll_memory (xdr := accounts.ledger_xdr) _ _ _ ∅) in Hadd;
    [| done].
  destruct Hadd as (ksL & g1 & HksL & Hnd & _ & Hdom & ->).
  assert (dom g1 = list_to_set ksL) as Hdom'
    by (rewrite Hdom, dom_empty_L; set_solver).
  destruct (Verify_true_memory (xdr := accounts.ledger_xdr) ksL
              (StateVerifier.set_TempSet (mem g1)
                 (StateVerifier.set_TempSet (mem ∅) (newStateVerifier stateReader)))
              v2 g1 eq_refl Hdom' Hnd Hv)
    as (stream & rest & ks & Hrd & Hrest & Hks & Hperm).
  by exists stream, rest, ks, ksL.
Qed.

(** X23. When the archive delivers, in whatever order, entries whose keys,
    after [transformEntry], are the keys of the entries built from the rows,
    each once, and these are pairwise distinct, [verifyState] returns nil,
    with the flag released. *)
Theorem verifyState_matching_returns_nil (w : World) (ledgerSequence : Z)
    (stream : list accounts.LedgerEntryChange_t)
    (rows : list history.AccountSigner) (ks ksL : list string) :
  ready w ledgerSequence (map inl stream) rows ->
  accounts.convertible address signerKey rows ->
  stream_keys (xdr := accounts.ledger_xdr) (Some transform) stream = Some ks ->
  local_keys (xdr := accounts.ledger_xdr)
    (local_entries address signerKey rows) = Some ksL ->
  NoDup ksL ->
  ks ≡ₚ ksL ->
  verifyState {| stateVerificationRunning := false |} w
  = ({| stateVerificationRunning := false |}, Ret None).
Proof.
  intros Hready Hconv Hks HksL Hnd Hperm.
  rewrite (verifyState_ready _ _ _ _ Hready Hconv).
  destruct (verifyState_added (map inl stream) rows ksL HksL Hnd)
    as (g1 & -> & Hdom).
  cbn [mbind Result_bind].
  rewrite (Verify_stream_matched (xdr := accounts.ledger_xdr) stream ks _ g1);
    try done.
  - cbn [mbind Result_bind].
    rewrite bool_decide_eq_true_2; [done |].
    rewrite Hdom. apply set_eq. intros k.
    rewrite elem_of_difference, !elem_of_list_to_set, Hperm. set_solver.
  - by rewrite Hperm.
  - intros k Hk. rewrite Hdom. apply elem_of_list_to_set. by rewrite <- Hperm.
Qed.

(** X24. An entry of the archive that the rows do not account for stops the
    process. Behind entries that match, the archive delivers an entry that
    [transformEntry] keeps and whose key is not a key of the rows' entries,
    or is one that an earlier entry matched already: [verifyState] panics
    with true, after releasing the flag. *)
Theorem verifyState_mismatch_panics (w : World) (ledgerSequence : Z)
    (before : list accounts.LedgerEntryChange_t)
    (entryChange : accounts.LedgerEntryChange_t)
    (after : StateVerifier.SingleLedgerStateReader (xdr := accounts.ledger_xdr))
    (rows : list history.AccountSigner) (ks ksL : list string) (key : string) :
  ready w ledgerSequence (map inl before ++ inl entryChange :: after) rows ->
  accounts.convertible address signerKey rows ->
  local_keys (xdr := accounts.ledger_xdr)
    (local_entries address signerKey rows) = Some ksL ->
  NoDup ksL ->
  stream_keys (xdr := accounts.ledger_xdr) (Some transform) before = Some ks ->
  NoDup ks ->
  ks ⊆ ksL ->
  normalized_key (xdr := accounts.ledger_xdr) (Some transform) entryChange
  = Some (Some key) ->
  key ∉ ksL ∨ key ∈ ks ->
  verifyState {| stateVerificationRunning := false |} w
  = ({| stateVerificationRunning := false |}, Panic "true").
Proof.
  intros Hready Hconv HksL Hnd Hks Hndk Hsub Hkey Hbad.
  rewrite (verifyState_ready _ _ _ _ Hready Hconv).
  destruct (verifyState_added (map inl before ++ inl entryChange :: after)
              rows ksL HksL Hnd) as (g1 & -> & Hdom).
  cbn [mbind Result_bind].
  destruct (Verify_mismatch_memory (xdr := accounts.ledger_xdr)
              before entryChange after ks key
              (StateVerifier.set_TempSet (mem g1)
                 (newStateVerifier (map inl before ++ inl entryChange :: after)))
              g1) as [v2 ->]; try done.
  - intros k Hk. rewrite Hdom. apply elem_of_list_to_set. by apply Hsub.
  - rewrite Hdom, elem_of_difference, !elem_of_list_to_set. tauto.
Qed.

(** X25. An account of the rows that the archive never delivers stops the
    process as well. The archive delivers entries that all match, and one
    key of the rows' entries stays unmatched: [verifyState] panics with
    true, after releasing the flag. *)
Theorem verifyState_leftover_panics (w : World) (ledgerSequence : Z)
    (stream : list accounts.LedgerEntryChange_t)
    (rows : list history.AccountSigner) (ks ksL : list string) (key : string) :
  ready w ledgerSequence (map inl stream) rows ->
  accounts.convertible address signerKey rows ->
  local_keys (xdr := accounts.ledger_xdr)
    (local_entries address signerKey rows) = Some ksL ->
  NoDup ksL ->
  stream_keys (xdr := accounts.ledger_xdr) (Some transform) stream = Some ks ->
  NoDup ks ->
  ks ⊆ ksL ->
  key ∈ ksL -> key ∉ ks ->
  verifyState {| stateVerificationRunning := false |} w
  = ({| stateVerificationRunning := false |}, Panic "true").
Proof.
  intros Hready Hconv HksL Hnd Hks Hndk Hsub Hin Hnin.
  rewrite (verifyState_ready _ _ _ _ Hready Hconv).
  destruct (verifyState_added (map inl stream) rows ksL HksL Hnd)
    as (g1 & -> & Hdom).
  cbn [mbind Result_bind].
  rewrite (Verify_stream_matched (xdr := accounts.ledger_xdr) stream ks _ g1);
    try done.
  - cbn [mbind Result_bind].
    rewrite bool_decide_eq_false_2; [done |].
    rewrite Hdom. set_solver.
  - intros k Hk. rewrite Hdom. apply elem_of_list_to_set. by apply Hsub.
Qed.

(** X26. When a verification is running already, when the transaction
    does not start, when the query for the last ledger fails, or when that
    ledger is no checkpoint, [verifyState] returns without a panic, and
    neither the rows of the database nor the archive are looked at: it does
    the same in any world that answers these first calls alike. *)
Theorem verifyState_early_returns (s : System) (w w' : World) :
  BeginTx w' = BeginTx w ->
  GetLastLedgerExpIngestNonBlocking w' = GetLastLedgerExpIngestNonBlocking w ->
  IsCheckpoint w' = IsCheckpoint w ->
  stateVerificationRunning s = true
  ∨ is_Some (BeginTx w)
  ∨ is_Some (GetLastLedgerExpIngestNonBlocking w).2
  ∨ IsCheckpoint w (GetLastLedgerExpIngestNonBlocking w).1 = false ->
  verifyState s w' = verifyState s w
  ∧ ∃ err, verifyState s w
           = ((if stateVerificationRunning s then s
               else {| stateVerificationRunning := false |}), Ret err).
Proof.
  intros Htx Hseq Hcp Hearly. unfold verifyState, verifyState_run.
  rewrite Htx, Hseq, Hcp.
  destruct (stateVerificationRunning s) eqn:Hrun; [by eauto |].
  destruct (BeginTx w) as [e |] eqn:Hb; [by eauto |].
  destruct (GetLastLedgerExpIngestNonBlocking w) as [seq [e |]] eqn:Hg;
    [by eauto |].
  destruct (IsCheckpoint w seq) eqn:Hc; cbn [negb]; [| by eauto].
  destruct Hearly as [? | [[? ?] | [[? ?] | ?]]];
    simpl in *; try done; congruence.
Qed.

End VerifyState.

(** ** The further statements at work on the small instances *)

Section MoreScenarios.
#[local] Existing Instances Scenario.xdr Scenario.digest Scenario.decls.
Import StateVerifier.

Abbreviation MemSet := MemoryStateVerifyTempSet.MemoryStateVerifyTempSet.

Lemma Verify_result_shape_witness :
  (false, @None error) = (false, None) ∨ (false, @None error) = (true, None)
  ∨ (false = true ∧ is_Some (@None error)).
Proof.
  apply (Verify_result_shape (xdr := Scenario.xdr) (digest := Scenario.digest)
           (Scenario.added
              (Scenario.verifier [inl (Some "A"); inl (Some "X")] None) ["A"])
           (Scenario.verified
              (Scenario.added
                 (Scenario.verifier [inl (Some "A"); inl (Some "X")] None) ["A"]))
           false None).
  vm_compute. reflexivity.
Defined.

Lemma Verify_consumes_a_prefix_witness :
  (∃ consumed,
     StateReader
       (Scenario.added
          (Scenario.verifier [inl (Some "A"); inl (Some "X"); inl (Some "B")] None)
          ["A"; "B"])
     = consumed
       ++ StateReader
            (Scenario.verified
               (Scenario.added
                  (Scenario.verifier
                     [inl (Some "A"); inl (Some "X"); inl (Some "B")] None)
                  ["A"; "B"])))
  ∧ TransformFunction
      (Scenario.verified
         (Scenario.added
            (Scenario.verifier [inl (Some "A"); inl (Some "X"); inl (Some "B")] None)
            ["A"; "B"]))
    = TransformFunction
        (Scenario.added
           (Scenario.verifier [inl (Some "A"); inl (Some "X"); inl (Some "B")] None)
           ["A"; "B"]).
Proof.
  apply (Verify_consumes_a_prefix (xdr := Scenario.xdr) (digest := Scenario.digest)
           _ _ (false, None)).
  vm_compute. reflexivity.
Defined.

Lemma Verify_true_only_if_matching_witness :
  ∃ stream rest ks,
    StateReader
      (Scenario.verifier [inl (Some "B"); inl (Some "D"); inl (Some "A")]
         (Some Scenario.normalize))
    = map inl stream ++ rest
    ∧ (rest = [] ∨ ∃ rest', rest = inr EOF :: rest')
    ∧ stream_keys (Some Scenario.normalize) stream = Some ks
    ∧ ks ≡ₚ ["A"; "B"].
Proof.
  eapply (Verify_true_only_if_matching (xdr := Scenario.xdr)
            (digest := Scenario.digest) ["A"; "B"] ["A"; "B"]
            (Scenario.verifier [inl (Some "B"); inl (Some "D"); inl (Some "A")]
               (Some Scenario.normalize))).
  - reflexivity.
  - vm_compute. reflexivity.
  - vm_compute. reflexivity.
  - vm_compute. reflexivity.
Defined.

Lemma Verify_leftover_keys_witness :
  ∃ v2 : StateVerifier MemSet,
    Verify (Scenario.added
              (Scenario.verifier [inl (Some "A"); inl (Some "B")] None)
              ["A"; "B"; "C"])
    = Ret ((false, None), v2)
    ∧ StateReader v2 = []
    ∧ held (TempSet v2) = list_to_set ["A"; "B"; "C"] ∖ list_to_set ["A"; "B"]
    ∧ "C" ∈ held (TempSet v2).
Proof.
  eapply (Verify_leftover_keys (xdr := Scenario.xdr) (digest := Scenario.digest)
            ["A"; "B"; "C"] [Some "A"; Some "B"] ["A"; "B"] ["A"; "B"; "C"] "C"
            (Scenario.verifier [inl (Some "A"); inl (Some "B")] None)).
  - reflexivity.
  - vm_compute. reflexivity.
  - vm_compute. reflexivity.
  - reflexivity.
  - vm_compute. reflexivity.
  - compute_done.
  - compute_done.
  - compute_done.
  - compute_done.
Defined.

Lemma Verify_second_delivery_witness :
  ∃ (v2 : StateVerifier MemSet) (diagnosis : error),
    Verify (Scenario.added
              (Scenario.verifier
                 [inl (Some "A"); inl (Some "A"); inl (Some "B")] None)
              ["A"; "B"])
    = Ret ((false, None), v2)
    ∧ "A" ∈ ["A"; "B"]
    ∧ StateError v2 = Some diagnosis
    ∧ Contains (Error diagnosis) "A" = true
    ∧ StateReader v2 = [inl (Some "B")].
Proof.
  eapply (Verify_second_delivery (xdr := Scenario.xdr) (digest := Scenario.digest)
            ["A"; "B"] [Some "A"] (Some "A") [inl (Some "B")] ["A"] ["A"; "B"] "A"
            (Scenario.verifier
               [inl (Some "A"); inl (Some "A"); inl (Some "B")] None)).
  - reflexivity.
  - vm_compute. reflexivity.
  - vm_compute. reflexivity.
  - reflexivity.
  - vm_compute. reflexivity.
  - compute_done.
  - compute_done.
  - vm_compute. reflexivity.
  - compute_done.
Defined.

Lemma Verify_read_failure_witness :
  ∃ v2 : StateVerifier MemSet,
    Verify (Scenario.added
              (Scenario.verifier
                 [inl (Some "A"); inr (errNew "unexpected EOF"); inl (Some "B")]
                 None)
              ["A"; "B"])
    = Ret ((true, Some (errNew "unexpected EOF")), v2)
    ∧ StateError v2 = None
    ∧ StateReader v2 = [inl (Some "B")]
    ∧ held (TempSet v2) = list_to_set ["A"; "B"] ∖ list_to_set ["A"].
Proof.
  eapply (Verify_read_failure (xdr := Scenario.xdr) (digest := Scenario.digest)
            ["A"; "B"] [Some "A"] (errNew "unexpected EOF") [inl (Some "B")]
            ["A"] ["A"; "B"]
            (Scenario.verifier
               [inl (Some "A"); inr (errNew "unexpected EOF"); inl (Some "B")]
               None)).
  - reflexivity.
  - vm_compute. reflexivity.
  - vm_compute. reflexivity.
  - reflexivity.
  - vm_compute. reflexivity.
  - compute_done.
  - compute_done.
  - compute_done.
Defined.

Lemma Verify_encoding_failure_witness :
  ∃ v2 : StateVerifier MemSet,
    Verify (Scenario.added
              (Scenario.verifier
                 [inl (Some "A"); inl (Some "#"); inl (Some "B")]
                 (Some Scenario.normalize))
              ["A"; "B"])
    = Ret ((true, Some (errNew "xdr: cannot encode")), v2)
    ∧ StateError v2 = None
    ∧ StateReader v2 = [inl (Some "B")]
    ∧ held (TempSet v2) = list_to_set ["A"; "B"] ∖ list_to_set ["A"].
Proof.
  eapply (Verify_encoding_failure (xdr := Scenario.xdr) (digest := Scenario.digest)
            ["A"; "B"] [Some "A"] (Some "#") "#" "" [] (errNew "xdr: cannot encode")
            [inl (Some "B")] ["A"] ["A"; "B"]
            (Scenario.verifier
               [inl (Some "A"); inl (Some "#"); inl (Some "B")]
               (Some Scenario.normalize))).
  - reflexivity.
  - vm_compute. reflexivity.
  - vm_compute. reflexivity.
  - reflexivity.
  - vm_compute. reflexivity.
  - compute_done.
  - compute_done.
  - reflexivity.
  - reflexivity.
  - reflexivity.
Defined.

Lemma Verify_never_adds_witness :
  held (TempSet
          (Scenario.verified
             (Scenario.added
                (Scenario.verifier [inl (Some "A"); inl (Some "X")] None)
                ["A"; "B"])))
  ∖ held (TempSet
            (Scenario.added
               (Scenario.verifier [inl (Some "A"); inl (Some "X")] None)
               ["A"; "B"]))
  = ∅.
Proof.
  apply (Verify_never_adds (xdr := Scenario.xdr) (digest := Scenario.digest)
           _ _ (false, None)).
  vm_compute. reflexivity.
Defined.

Lemma transformEntry_ignores_other_kinds_witness :
  expingest.transformEntry Scenario.MasterKeyWeight Scenario.SortSignersByKey
    AccountsScenario.trustline
  = Ret (true, expingest.LedgerEntry_zero).
Proof.
  apply (transformEntry_ignores_other_kinds (decls := Scenario.decls)).
  - compute_done.
  - compute_done.
Defined.

Lemma transformEntry_reads_three_fields_witness :
  expingest.transformEntry Scenario.MasterKeyWeight Scenario.SortSignersByKey
    AccountsScenario.archive_GA
  = expingest.transformEntry Scenario.MasterKeyWeight Scenario.SortSignersByKey
      (AccountsScenario.account "GA" (Byte.x01, Byte.x00, Byte.x07, Byte.x00)
         [("GZ", 2%Z); ("GB", 3%Z)]).
Proof.
  eapply (transformEntry_reads_three_fields (decls := Scenario.decls));
    reflexivity.
Defined.

Lemma transformEntry_kept_is_fixed_witness :
  expingest.transformEntry Scenario.MasterKeyWeight Scenario.SortSignersByKey
    (AccountsScenario.account "GA" (Byte.x01, Byte.x00, Byte.x00, Byte.x00)
       [("GB", 3%Z); ("GZ", 2%Z)])
  = Ret (false,
         AccountsScenario.account "GA" (Byte.x01, Byte.x00, Byte.x00, Byte.x00)
           [("GB", 3%Z); ("GZ", 2%Z)]).
Proof.
  eapply (transformEntry_kept_is_fixed (decls := Scenario.decls)
            Scenario.MasterKeyWeight Scenario.SortSignersByKey
            AccountsScenario.archive_GA).
  - intros a. reflexivity.
  - reflexivity.
  - reflexivity.
  - reflexivity.
  - reflexivity.
Defined.

End MoreScenarios.

Section AccountsScenarios.
#[local] Existing Instances Scenario.decls AccountsScenario.funcs Scenario.digest
  accounts.ledger_xdr.
Import AccountsScenario.

Abbreviation MemSet := MemoryStateVerifyTempSet.MemoryStateVerifyTempSet.

(** The rows of the instance convert: no string is empty. *)
Ltac rows_convert :=
  repeat (constructor;
          [split; [reflexivity | split; [reflexivity | intros _; reflexivity]] |]);
  constructor.

Lemma addAccounts_one_entry_per_account_witness :
  accounts.addAccountsToStateVerifier opened (query (map inl two_accounts) None)
  = StateVerifier.AddAll
      (accounts.closed_entries address signerKey (accounts.group_rows two_accounts)
       ++ [accounts.last_entry address signerKey (accounts.group_rows two_accounts)])
      opened.
Proof.
  apply (addAccounts_one_entry_per_account (decls := Scenario.decls)
           (funcs := AccountsScenario.funcs) (digest := Scenario.digest)
           address signerKey two_accounts opened).
  rows_convert.
Defined.

Lemma addAccounts_Scan_error_witness :
  accounts.addAccountsToStateVerifier opened
    (query (map inl two_accounts ++ inr (errNew "bad column") :: [inl (row "GE" "GE" 1)])
       None)
  = '(e, v1) ← StateVerifier.AddAll
                 (accounts.closed_entries address signerKey (accounts.group_rows two_accounts))
                 opened;
    Ret (Some (default (accounts.Wrap (errNew "bad column")
                          "rows.Scan returned error") e), v1).
Proof.
  apply (addAccounts_Scan_error (decls := Scenario.decls)
           (funcs := AccountsScenario.funcs) (digest := Scenario.digest)
           address signerKey two_accounts (errNew "bad column") [inl (row "GE" "GE" 1)]
           None opened).
  rows_convert.
Defined.

Lemma addAccounts_rows_Err_witness :
  accounts.addAccountsToStateVerifier opened
    (query (map inl two_accounts) (Some (errNew "connection lost")))
  = '(e, v1) ← StateVerifier.AddAll
                 (accounts.closed_entries address signerKey (accounts.group_rows two_accounts))
                 opened;
    Ret (Some (default (accounts.Wrap (errNew "connection lost")
                          "rows.Err returned error") e), v1).
Proof.
  apply (addAccounts_rows_Err (decls := Scenario.decls)
           (funcs := AccountsScenario.funcs) (digest := Scenario.digest)
           address signerKey two_accounts (errNew "connection lost") opened).
  rows_convert.
Defined.

Lemma addAccounts_last_account_unsorted_witness :
  ∃ account,
    accounts.addAccountsToStateVerifier opened
      (query (map inl [row "GC" "GY" 5; row "GC" "GD" 4]) None)
    = StateVerifier.Add (accounts.accountLedgerEntry (Some account)) opened
    ∧ expingest.AccountId account = "GC"
    ∧ expingest.Signers account
      = accounts.signers_of_rows signerKey [row "GC" "GY" 5; row "GC" "GD" 4].
Proof.
  apply (addAccounts_last_account_unsorted (decls := Scenario.decls)
           (funcs := AccountsScenario.funcs) (digest := Scenario.digest)
           address signerKey (row "GC" "GY" 5) [row "GC" "GD" 4] opened).
  - rows_convert.
  - repeat constructor.
Defined.

Lemma closed_entry_is_normal_witness :
  expingest.transformEntry Scenario.MasterKeyWeight Scenario.SortSignersByKey
    (account "GA" (Byte.x01, Byte.x00, Byte.x00, Byte.x00)
       [("GB", 3%Z); ("GZ", 2%Z)])
  = Ret (false,
         account "GA" (Byte.x01, Byte.x00, Byte.x00, Byte.x00)
           [("GB", 3%Z); ("GZ", 2%Z)]).
Proof.
  apply (closed_entry_is_normal (decls := Scenario.decls)
           (funcs := AccountsScenario.funcs) address signerKey
           [row "GA" "GA" 1; row "GA" "GZ" 2; row "GA" "GB" 3]
           (@expingest.mkAccountEntry Scenario.decls "GA"
              (Byte.x01, Byte.x00, Byte.x00, Byte.x00)
              [("GZ", 2%Z); ("GB", 3%Z)] tt)).
  - intros a. reflexivity.
  - reflexivity.
  - reflexivity.
  - reflexivity.
  - left. discriminate.
Defined.

Lemma ready_world (stream : list (option expingest.LedgerEntry + error))
    (rows : list history.AccountSigner) :
  system.ready (world stream rows) 63 stream rows.
Proof. by repeat split. Qed.

Lemma verifyState_nil_only_if_matching_witness :
  ∃ stream rest ks ksL,
    [inl (Some archive_GC); inl (Some trustline); inl (Some archive_GA)]
    = map inl stream ++ rest
    ∧ (rest = [] ∨ ∃ rest', rest = inr EOF :: rest')
    ∧ stream_keys
        (Some (expingest.transformEntry Scenario.MasterKeyWeight
                 Scenario.SortSignersByKey)) stream
      = Some ks
    ∧ local_keys (system.local_entries address signerKey in_order) = Some ksL
    ∧ ks ≡ₚ ksL.
Proof.
  apply (verifyState_nil_only_if_matching (decls := Scenario.decls)
           (funcs := AccountsScenario.funcs) (digest := Scenario.digest) address signerKey
           (world [inl (Some archive_GC); inl (Some trustline); inl (Some archive_GA)]
              in_order)
           63).
  - by repeat split.
  - rows_convert.
  - vm_compute. reflexivity.
Defined.

Lemma verifyState_matching_returns_nil_witness :
  system.verifyState {| system.stateVerificationRunning := false |}
    (world (map inl [Some archive_GC; Some trustline; Some archive_GA]) in_order)
  = ({| system.stateVerificationRunning := false |}, Ret None).
Proof.
  apply (verifyState_matching_returns_nil (decls := Scenario.decls)
           (funcs := AccountsScenario.funcs) (digest := Scenario.digest) address signerKey
           _ 63 [Some archive_GC; Some trustline; Some archive_GA] in_order
           (stream_keys_of [Some archive_GC; Some trustline; Some archive_GA])
           (keys_of (system.local_entries address signerKey in_order))).
  - by repeat split.
  - rows_convert.
  - vm_compute. reflexivity.
  - vm_compute. reflexivity.
  - compute_done.
  - compute_done.
Defined.

Lemma verifyState_mismatch_panics_witness :
  system.verifyState {| system.stateVerificationRunning := false |}
    (world (map inl [Some archive_GA] ++ inl (Some archive_GC) :: [])
       two_accounts)
  = ({| system.stateVerificationRunning := false |}, Panic "true").
Proof.
  apply (verifyState_mismatch_panics (decls := Scenario.decls)
           (funcs := AccountsScenario.funcs) (digest := Scenario.digest) address signerKey
           _ 63 [Some archive_GA] (Some archive_GC) [] two_accounts
           (stream_keys_of [Some archive_GA])
           (keys_of (system.local_entries address signerKey two_accounts))
           (default "" (head (stream_keys_of [Some archive_GC])))).
  - by repeat split.
  - rows_convert.
  - vm_compute. reflexivity.
  - compute_done.
  - vm_compute. reflexivity.
  - compute_done.
  - compute_done.
  - vm_compute. reflexivity.
  - left. compute_done.
Defined.

Lemma verifyState_leftover_panics_witness :
  system.verifyState {| system.stateVerificationRunning := false |}
    (world (map inl [Some trustline; Some archive_GA]) in_order)
  = ({| system.stateVerificationRunning := false |}, Panic "true").
Proof.
  apply (verifyState_leftover_panics (decls := Scenario.decls)
           (funcs := AccountsScenario.funcs) (digest := Scenario.digest) address signerKey
           _ 63 [Some trustline; Some archive_GA] in_order
           (stream_keys_of [Some trustline; Some archive_GA])
           (keys_of (system.local_entries address signerKey in_order))
           (default "" (last (keys_of (system.local_entries address signerKey in_order))))).
  - by repeat split.
  - rows_convert.
  - vm_compute. reflexivity.
  - compute_done.
  - vm_compute. reflexivity.
  - compute_done.
  - compute_done.
  - compute_done.
  - compute_done.
Defined.

Lemma verifyState_early_returns_witness :
  system.verifyState {| system.stateVerificationRunning := true |}
    (world [inl (Some archive_GA)] two_accounts)
  = system.verifyState {| system.stateVerificationRunning := true |}
      (world [] [])
  ∧ ∃ err,
      system.verifyState {| system.stateVerificationRunning := true |}
        (world [] [])
      = ({| system.stateVerificationRunning := true |}, Ret err).
Proof.
  apply (verifyState_early_returns (decls := Scenario.decls)
           (funcs := AccountsScenario.funcs) (digest := Scenario.digest)
           {| system.stateVerificationRunning := true |}
           (world [] []) (world [inl (Some archive_GA)] two_accounts)).
  - reflexivity.
  - reflexivity.
  - reflexivity.
  - left. reflexivity.
Defined.

End AccountsScenarios.
